(** * CoolBox: Hi-C matrix normalisation and loop-file overlay lookup

    A shallow embedding of

      - [coolbox/core/track/hicmat/fetch.py]  (class [FetchHiC]),
      - [coolbox/core/coverage/hicpeaks.py]   (class [HiCPeaks]),
      - [coolbox/core/coverage/base.py]       (the construction of a
        [Coverage]) and
      - [coolbox/plots/track/bam.py]          ([parse_samtools_cov]),

    together with the small part of the Python, numpy, scipy and
    intervaltree run time those files rely on.

    Conventions.
      - A Python call either returns or raises: [outcome A].
      - Python [int] is [Z]; Python [str] is [string] (one-byte characters),
        except in [bam.py], whose lines are lists of code points.
      - numpy [float64] entries are idealised as real numbers [R]: rounding,
        [inf] and [nan] are outside the model, and [x / 0] is the total
        division of [R] where numpy would produce [inf]/[nan] with a warning
        (never an exception); a statement about a quotient below is a
        statement about that division.
      - A two-dimensional numpy array is its shape and its entries. *)

From Stdlib Require Import ZArith Reals Lra Lia List String Ascii Bool.
From Stdlib Require Import Rpower R_sqrt DecimalString.
From Stdlib Require Import Permutation Sorted.
Import ListNotations.

(* ================================================================== *)
(** * Python run time *)
(* ================================================================== *)

Module Py.

Local Open Scope Z_scope.

(** The built-in exceptions the two source files can raise. *)
Inductive exn : Type :=
| ValueError (msg : string)
| KeyError (key : string)
| IndexError (msg : string)
| TypeError (msg : string).

Inductive outcome (A : Type) : Type :=
| Ok (a : A)
| Raise (e : exn).

Arguments Ok {A} a.
Arguments Raise {A} e.

Definition bind {A B : Type} (c : outcome A) (k : A -> outcome B) : outcome B :=
  match c with
  | Ok a => k a
  | Raise e => Raise e
  end.

Definition raises {A : Type} (c : outcome A) : bool :=
  match c with
  | Ok _ => false
  | Raise _ => true
  end.

(** [for x in xs: body] where the body may raise. *)
Fixpoint for_each {A S : Type} (xs : list A) (body : S -> A -> outcome S) (s : S)
  : outcome S :=
  match xs with
  | [] => Ok s
  | x :: rest => bind (body s x) (for_each rest body)
  end.

(** [list(map(f, xs))] where [f] may raise. *)
Fixpoint map_outcome {A B : Type} (f : A -> outcome B) (xs : list A)
  : outcome (list B) :=
  match xs with
  | [] => Ok []
  | x :: rest =>
      bind (f x) (fun y => bind (map_outcome f rest) (fun ys => Ok (y :: ys)))
  end.

(** ** Characters and strings *)

Definition is_digit (c : ascii) : bool :=
  let n := nat_of_ascii c in (48 <=? n)%nat && (n <=? 57)%nat.

Definition digit_value (c : ascii) : Z := Z.of_nat (nat_of_ascii c) - 48.

(** The characters [str.split()] and [str.strip()] treat as white space. *)
Definition is_space (c : ascii) : bool :=
  let n := nat_of_ascii c in
  ((9 <=? n)%nat && (n <=? 13)%nat) || ((28 <=? n)%nat && (n <=? 32)%nat).

Definition newline : ascii := ascii_of_nat 10.
Definition tab : ascii := ascii_of_nat 9.

Fixpoint mem_char (c : ascii) (s : string) : bool :=
  match s with
  | EmptyString => false
  | String d rest => Ascii.eqb c d || mem_char c rest
  end.

Fixpoint drop_while (f : ascii -> bool) (s : string) : string :=
  match s with
  | EmptyString => EmptyString
  | String c rest => if f c then drop_while f rest else s
  end.

Fixpoint rev_onto (s acc : string) : string :=
  match s with
  | EmptyString => acc
  | String c rest => rev_onto rest (String c acc)
  end.

Definition str_rev (s : string) : string := rev_onto s EmptyString.

(** [s.strip(chars)]: the characters of [chars] are removed from both ends. *)
Definition str_strip_in (f : ascii -> bool) (s : string) : string :=
  str_rev (drop_while f (str_rev (drop_while f s))).

Definition str_strip (chars s : string) : string :=
  str_strip_in (fun c => mem_char c chars) s.

(** [s.startswith(p)]. *)
Fixpoint str_startswith (p s : string) : bool :=
  match p, s with
  | EmptyString, _ => true
  | String a p', String b s' => Ascii.eqb a b && str_startswith p' s'
  | String _ _, EmptyString => false
  end.

(** [s.split(sep)] for a one-character separator: empty pieces are kept. *)
Fixpoint split_on (sep : ascii) (s cur : string) : list string :=
  match s with
  | EmptyString => [str_rev cur]
  | String c rest =>
      if Ascii.eqb c sep then str_rev cur :: split_on sep rest EmptyString
      else split_on sep rest (String c cur)
  end.

Definition str_split (sep : ascii) (s : string) : list string :=
  split_on sep s EmptyString.

(** [s.split()]: pieces between runs of white space, none of them empty. *)
Fixpoint split_ws (s cur : string) : list string :=
  match s with
  | EmptyString =>
      match cur with EmptyString => [] | _ => [str_rev cur] end
  | String c rest =>
      if is_space c then
        match cur with
        | EmptyString => split_ws rest EmptyString
        | _ => str_rev cur :: split_ws rest EmptyString
        end
      else split_ws rest (String c cur)
  end.

Definition str_split_ws (s : string) : list string := split_ws s EmptyString.

(** [s.isdigit()]: at least one character, all of them decimal digits. *)
Fixpoint all_digits (s : string) : bool :=
  match s with
  | EmptyString => true
  | String c rest => is_digit c && all_digits rest
  end.

Definition str_isdigit (s : string) : bool :=
  match s with
  | EmptyString => false
  | _ => all_digits s
  end.

(** ** [int(s)]

    White space around the literal is ignored, one sign is allowed, and
    single underscores may separate digits.  (The interpreter's limit on the
    number of digits of a literal is not modelled.) *)

Fixpoint int_digits (s : string) (acc : Z) (after_digit : bool) : option Z :=
  match s with
  | EmptyString => if after_digit then Some acc else None
  | String c rest =>
      if is_digit c then int_digits rest (10 * acc + digit_value c) true
      else if Ascii.eqb c "_" && after_digit then
        match rest with
        | String d _ => if is_digit d then int_digits rest acc false else None
        | EmptyString => None
        end
      else None
  end.

Definition invalid_literal : exn :=
  ValueError "invalid literal for int() with base 10".

Definition int (s : string) : outcome Z :=
  let t := str_strip_in is_space s in
  let signed (neg : bool) (body : string) :=
    match int_digits body 0 false with
    | Some n => Ok (if neg then - n else n)
    | None => Raise invalid_literal
    end in
  match t with
  | String "-" body => signed true body
  | String "+" body => signed false body
  | _ => signed false t
  end.

(** [str(n)] *)
Definition str_of_int (n : Z) : string := NilZero.string_of_int (Z.to_int n).

(** ** Slices with step 1

    [slice(start, stop)] applied to a sequence of length [len]: a missing
    bound is the end of the sequence, a negative bound counts from the end,
    and both are clipped to [0, len]. *)

Record slice : Type := Slice { start : option Z; stop : option Z }.

Definition clip_bound (len : nat) (b : Z) : nat :=
  if b <? 0 then Z.to_nat (Z.max 0 (b + Z.of_nat len))
  else Z.to_nat (Z.min b (Z.of_nat len)).

(** The selected positions are [lo, lo+1, ..., hi-1] (none when [hi <= lo]). *)
Definition slice_lo (s : slice) (len : nat) : nat :=
  match start s with
  | None => 0%nat
  | Some b => clip_bound len b
  end.

Definition slice_hi (s : slice) (len : nat) : nat :=
  match stop s with
  | None => len
  | Some b => clip_bound len b
  end.

Definition slice_len (s : slice) (len : nat) : nat :=
  (slice_hi s len - slice_lo s len)%nat.

(** A scalar index [i] selects position [i], or [len + i] when negative. *)
Definition index_pos (len : nat) (i : Z) : outcome nat :=
  if (i <? - Z.of_nat len) || (Z.of_nat len <=? i) then
    Raise (IndexError "index is out of bounds")
  else if i <? 0 then Ok (Z.to_nat (i + Z.of_nat len))
  else Ok (Z.to_nat i).

End Py.

Notation "x <- c1 ;; c2" := (Py.bind c1 (fun x => c2))
  (at level 61, c1 at next level, right associativity).
Notation "' pat <- c1 ;; c2" :=
  (Py.bind c1 (fun x => match x with pat => c2 end))
  (at level 61, pat pattern, c1 at next level, right associativity).

(* ================================================================== *)
(** * numpy and scipy: two-dimensional arrays *)
(* ================================================================== *)

Module Np.

Import Py.
Local Open Scope R_scope.

(** A 2-D array: [shape = (nrows, ncols)], entry [elt i j] for [i < nrows]
    and [j < ncols].  A 1-D array (and a Python list of floats) is a
    [list R]. *)
Record ndarray : Type := Array { nrows : nat; ncols : nat; elt : nat -> nat -> R }.

Definition shape (a : ndarray) : nat * nat := (nrows a, ncols a).

(** [np.array(rows)] for a rectangular list of rows, and back. *)
Definition array (rows : list (list R)) : ndarray :=
  Array (List.length rows) (List.length (hd [] rows))
    (fun i j => nth j (nth i rows []) 0).

Definition tolist (a : ndarray) : list (list R) :=
  map (fun i => map (fun j => elt a i j) (seq 0 (ncols a))) (seq 0 (nrows a)).

(** Two arrays are the same array: same shape, same entries. *)
Definition same_array (a b : ndarray) : Prop :=
  shape a = shape b /\
  forall i j, (i < nrows a)%nat -> (j < ncols a)%nat -> elt a i j = elt b i j.

(** [np.zeros((r, c))] and [np.ones((r, c))]. *)
Definition full (r c : Z) (v : R) : outcome ndarray :=
  if ((r <? 0) || (c <? 0))%Z then
    Raise (ValueError "negative dimensions are not allowed")
  else Ok (Array (Z.to_nat r) (Z.to_nat c) (fun _ _ => v)).

Definition zeros (r c : Z) : outcome ndarray := full r c 0.
Definition ones (r c : Z) : outcome ndarray := full r c 1.

(** ** Indexing *)

(** One axis of a subscript: a scalar index or a slice. *)
Inductive index : Type :=
| At (i : Z)
| Range (s : slice).

Definition from_to (a b : Z) : index := Range (Slice (Some a) (Some b)).
Definition up_to (b : Z) : index := Range (Slice None (Some b)).

(** The positions [lo <= i < hi] an axis subscript selects. *)
Definition index_bounds (ix : index) (len : nat) : outcome (nat * nat) :=
  match ix with
  | At i => pos <- index_pos len i ;; Ok (pos, S pos)
  | Range s => Ok (slice_lo s len, slice_hi s len)
  end.

Definition within (bounds : nat * nat) (i : nat) : bool :=
  (fst bounds <=? i)%nat && (i <? snd bounds)%nat.

(** [a[ri, ci] = v] for a scalar [v]. *)
Definition setitem (a : ndarray) (ri ci : index) (v : R) : outcome ndarray :=
  rb <- index_bounds ri (nrows a) ;;
  cb <- index_bounds ci (ncols a) ;;
  Ok (Array (nrows a) (ncols a)
        (fun i j => if within rb i && within cb j then v else elt a i j)).

(** Broadcasting: an axis of length 1 stretches to any length. *)
Definition stretches (from to : nat) : bool :=
  (from =? to)%nat || (from =? 1)%nat.

Definition bidx (len i : nat) : nat := if (len =? 1)%nat then 0%nat else i.

Definition broadcast_error : exn :=
  ValueError "operands could not be broadcast together".

(** [a[rs, cs] = m] for an array [m]: [m] must broadcast to the shape of
    the selected block. *)
Definition setblock (a : ndarray) (rs cs : slice) (m : ndarray) : outcome ndarray :=
  let r0 := slice_lo rs (nrows a) in
  let c0 := slice_lo cs (ncols a) in
  if stretches (nrows m) (slice_len rs (nrows a))
     && stretches (ncols m) (slice_len cs (ncols a))
  then
    Ok (Array (nrows a) (ncols a)
          (fun i j =>
             if within (r0, slice_hi rs (nrows a)) i
                && within (c0, slice_hi cs (ncols a)) j
             then elt m (bidx (nrows m) (i - r0)) (bidx (ncols m) (j - c0))
             else elt a i j))
  else Raise (ValueError "could not broadcast input array").

(** [a[rs, cs]]. *)
Definition getblock (a : ndarray) (rs cs : slice) : ndarray :=
  Array (slice_len rs (nrows a)) (slice_len cs (ncols a))
    (fun i j => elt a (slice_lo rs (nrows a) + i) (slice_lo cs (ncols a) + j)).

(** ** Element-wise operations *)

Definition map_array (f : R -> R) (a : ndarray) : ndarray :=
  Array (nrows a) (ncols a) (fun i j => f (elt a i j)).

Definition bshape (m n : nat) : option nat :=
  if (m =? n)%nat then Some m
  else if (m =? 1)%nat then Some n
  else if (n =? 1)%nat then Some m
  else None.

(** [a (op) b] with broadcasting. *)
Definition zip_with (f : R -> R -> R) (a b : ndarray) : outcome ndarray :=
  match bshape (nrows a) (nrows b), bshape (ncols a) (ncols b) with
  | Some r, Some c =>
      Ok (Array r c
            (fun i j =>
               f (elt a (bidx (nrows a) i) (bidx (ncols a) j))
                 (elt b (bidx (nrows b) i) (bidx (ncols b) j))))
  | _, _ => Raise broadcast_error
  end.

Definition subtract : ndarray -> ndarray -> outcome ndarray := zip_with Rminus.
Definition multiply : ndarray -> ndarray -> outcome ndarray := zip_with Rmult.
Definition divide : ndarray -> ndarray -> outcome ndarray := zip_with Rdiv.

(** [np.log], [np.log2], [np.log10] and [2 ** x]. *)
Definition log2 (x : R) : R := ln x / ln 2.
Definition log10 (x : R) : R := ln x / ln 10.
Definition exp2 (x : R) : R := Rpower 2 x.

(** ** Reductions *)

Definition sum_list (l : list R) : R := fold_right Rplus 0 l.

Definition row (a : ndarray) (i : nat) : list R :=
  map (fun j => elt a i j) (seq 0 (ncols a)).

(** [np.sum(a)]. *)
Definition sum (a : ndarray) : R :=
  sum_list (map (fun i => sum_list (row a i)) (seq 0 (nrows a))).

(** [x.mean()] and [x.std()] of a 1-D array. *)
Definition mean (l : list R) : R := sum_list l / INR (List.length l).

Definition std (l : list R) : R :=
  let m := mean l in sqrt (mean (map (fun x => (x - m) * (x - m)) l)).

(** [np.diagonal(a, k)] for an offset [k >= 0]. *)
Definition diagonal (a : ndarray) (k : nat) : list R :=
  map (fun i => elt a i (i + k)) (seq 0 (Nat.min (nrows a) (ncols a - k))).

(** [x.min()] of a 1-D array. *)
Definition min_list (l : list R) : outcome R :=
  match l with
  | [] => Raise (ValueError "zero-size array to reduction operation minimum which has no identity")
  | x :: rest => Ok (fold_left Rmin rest x)
  end.

Definition is_zero (x : R) : bool := if Req_dec_T x 0 then true else false.
Definition is_positive (x : R) : bool := if Rlt_dec 0 x then true else false.

(** ** scipy *)

(** [scipy.linalg.toeplitz(c)] for a real first column [c]. *)
Definition toeplitz (c : list R) : ndarray :=
  Array (List.length c) (List.length c)
    (fun i j => if (j <=? i)%nat then nth (i - j) c 0 else nth (j - i) c 0).

(** An entry, or the fill value 0 outside the array. *)
Definition elt0 (a : ndarray) (i j : Z) : R :=
  if ((0 <=? i) && (i <? Z.of_nat (nrows a))
      && (0 <=? j) && (j <? Z.of_nat (ncols a)))%Z
  then elt a (Z.to_nat i) (Z.to_nat j) else 0.

(** [scipy.signal.convolve2d(a, k, mode='same')] with the default zero
    boundary: the full convolution, cut to the shape of [a] around its
    centre. *)
Definition convolve2d_same (a k : ndarray) : ndarray :=
  let orow := Z.of_nat ((nrows k - 1) / 2) in
  let ocol := Z.of_nat ((ncols k - 1) / 2) in
  Array (nrows a) (ncols a)
    (fun i j =>
       sum_list
         (map (fun u =>
                 sum_list
                   (map (fun v =>
                           elt k u v
                           * elt0 a (Z.of_nat i + orow - Z.of_nat u)
                                    (Z.of_nat j + ocol - Z.of_nat v))
                      (seq 0 (ncols k))))
            (seq 0 (nrows k)))).

End Np.

(* ================================================================== *)
(** * [coolbox/core/track/hicmat/fetch.py] *)
(* ================================================================== *)

Module FetchHiC.

Import Py Np.
Local Open Scope Z_scope.

(** A value stored in [self.properties]. *)
Inductive value : Type :=
| Str (s : string)
| Num (x : R)
| Callable (f : ndarray -> outcome ndarray).

(** The entries of [self.properties] that [normalize_matrix] reads; [None]
    is a key that is not in the dictionary.  [transform] and [normalize]
    hold strings. *)
Record properties : Type := Properties {
  transform : option string;
  normalize : option string;
  gaussian_sigma : option value;
  process_func : option value
}.

Definition is_no (v : value) : bool :=
  match v with
  | Str s => String.eqb s "no"
  | _ => false
  end.

(** [re.match("hiccups:.:.", s)]: the pattern is matched at the start of
    [s] only, and [.] is any character but a newline. *)
Definition dot (c : ascii) : bool := negb (Ascii.eqb c newline).

Fixpoint strip_prefix (p s : string) : option string :=
  match p, s with
  | EmptyString, _ => Some s
  | String a p', String b s' =>
      if Ascii.eqb a b then strip_prefix p' s' else None
  | String _ _, EmptyString => None
  end.

Definition re_match_hiccups (s : string) : bool :=
  match strip_prefix "hiccups:" s with
  | Some (String a (String c (String b _))) => dot a && Ascii.eqb c ":" && dot b
  | _ => false
  end.

(** [diagonal_mean(mat)] *)
Definition diagonal_mean (mat : ndarray) : list R :=
  map (fun i => mean (diagonal mat i)) (seq 0 (nrows mat)).

(** The two lists the loop of [diagonal_mean_std] appends to. *)
Definition diagonal_std (mat : ndarray) : list R :=
  map (fun i => std (diagonal mat i)) (seq 0 (nrows mat)).

(** [diagonal_mean_std(mat)]:
    [stds[stds == 0] = stds[stds > 0].min()]. *)
Definition diagonal_mean_std (mat : ndarray) : outcome (list R * list R) :=
  let means := diagonal_mean mat in
  let stds := diagonal_std mat in
  smallest <- min_list (filter is_positive stds) ;;
  Ok (means, map (fun s => if is_zero s then smallest else s) stds).

(** [__donut_kernel(p, w)] *)
Definition __donut_kernel (p w : Z) : outcome ndarray :=
  k1 <- ones (2 * w + 1) (2 * w + 1) ;;
  k2 <- zeros (2 * w + 1) (2 * w + 1) ;;
  k2 <- setitem k2 (from_to (w - p) (w + p + 1)) (from_to (w - p) (w + p + 1)) 1 ;;
  k3 <- zeros (2 * w + 1) (2 * w + 1) ;;
  k3 <- setitem k3 (up_to (w - p)) (At w) 1 ;;
  k3 <- setitem k3 (At w) (up_to (w - p)) 1 ;;
  k3 <- setitem k3 (At w) (from_to (w + 2 * p - 1) (2 * w + 1)) 1 ;;
  k3 <- setitem k3 (from_to (w + 2 * p - 1) (2 * w + 1)) (At w) 1 ;;
  k <- subtract k1 k2 ;;
  subtract k k3.

(** The inner function [apply_donut(m)] of [__normalize_matrix], closed
    over [w] and [kernel]. *)
Definition idx_center (w : Z) (m : ndarray) : slice * slice :=
  (Slice (Some w) (Some (w + Z.of_nat (nrows m))),
   Slice (Some w) (Some (w + Z.of_nat (ncols m)))).

Definition apply_donut (w : Z) (kernel m : ndarray) : outcome ndarray :=
  let side := Z.of_nat (nrows m) + 2 * (w - 1) in
  m_ext <- zeros side side ;;
  let '(rs, cs) := idx_center w m in
  m_ext <- setblock m_ext rs cs m ;;
  let m_f := convolve2d_same m_ext kernel in
  Ok (getblock m_f rs cs).

(** [p, w = norm_mth.strip("hiccups:").split(":")] followed by
    [p, w = int(w), int(p)]: the pair [(p, w)] after both assignments. *)
Definition hiccups_params (norm_mth : string) : outcome (Z * Z) :=
  match str_split ":" (str_strip "hiccups:" norm_mth) with
  | [p; w] =>
      p' <- int w ;;
      w' <- int p ;;
      Ok (p', w')
  | [] | [_] => Raise (ValueError "not enough values to unpack (expected 2)")
  | _ => Raise (ValueError "too many values to unpack (expected 2)")
  end.

(** [__normalize_matrix(mat)] with [norm_mth = self.properties['normalize']]. *)
Definition __normalize_matrix (norm_mth : string) (mat : ndarray) : outcome ndarray :=
  if String.eqb norm_mth "total" then
    let total := sum mat in
    if negb (is_zero total) then Ok (map_array (fun x => x / total)%R mat)
    else Ok mat
  else if String.eqb norm_mth "expect" then
    let means := diagonal_mean mat in
    let expect := toeplitz means in
    divide mat expect
  else if String.eqb norm_mth "zscore" then
    '(means, stds) <- diagonal_mean_std mat ;;
    let mat_mean := toeplitz means in
    let mat_std := toeplitz stds in
    centred <- subtract mat mat_mean ;;
    divide centred mat_std
  else if re_match_hiccups norm_mth then
    '(p, w) <- hiccups_params norm_mth ;;
    kernel <- __donut_kernel p w ;;
    let means := diagonal_mean mat in
    let exp_decay := toeplitz means in
    m_donut <- apply_donut w kernel mat ;;
    exp_donut <- apply_donut w kernel exp_decay ;;
    ratio <- divide m_donut exp_donut ;;
    exp <- multiply ratio exp_decay ;;
    divide mat exp
  else Ok mat.

(** [__transform_matrix(arr)] with [self.properties['transform']]. *)
Definition __transform_matrix (mode : string) (arr : ndarray) : ndarray :=
  if String.eqb mode "log10" then map_array log10 arr
  else if String.eqb mode "log2" then map_array log2 arr
  else if String.eqb mode "log" then map_array ln arr
  else arr.

Section Pipeline.

(** [scipy.ndimage.gaussian_filter] and the built-in [eval] are used as
    they are. *)
Variable gaussian_filter : ndarray -> value -> outcome ndarray.
Variable eval : string -> outcome value.

(** [__gaussian_matrix(arr)] *)
Definition __gaussian_matrix (sigma : value) (arr : ndarray) : outcome ndarray :=
  gaussian_filter arr sigma.

Definition process_func_error : exn :=
  ValueError "process_func should a one argument function receive a matrix return a processed matrix.".

(** The body of the [try] block of [normalize_matrix]. *)
Definition call_process_func (func : value) (arr : ndarray) : outcome ndarray :=
  match func with
  | Callable f => f arr
  | Str src =>
      func' <- eval src ;;
      match func' with
      | Callable f => f arr
      | _ => Raise (TypeError "object is not callable")
      end
  | _ => Raise (ValueError "process_func")
  end.

(** A stage runs when its key is in [self.properties] and is not ['no']. *)
Definition enabled_str (v : option string) : option string :=
  match v with
  | Some s => if String.eqb s "no" then None else Some s
  | None => None
  end.

Definition enabled (v : option value) : option value :=
  match v with
  | Some x => if is_no x then None else Some x
  | None => None
  end.

(** [normalize_matrix(arr)] *)
Definition normalize_matrix (props : properties) (arr : ndarray) : outcome ndarray :=
  let arr :=
    match enabled_str (transform props) with
    | Some mode => __transform_matrix mode arr
    | None => arr
    end in
  arr <- match enabled_str (normalize props) with
         | Some norm_mth => __normalize_matrix norm_mth arr
         | None => Ok arr
         end ;;
  arr <- match enabled (gaussian_sigma props) with
         | Some sigma => __gaussian_matrix sigma arr
         | None => Ok arr
         end ;;
  match enabled (process_func props) with
  | Some func =>
      match call_process_func func arr with
      | Ok arr' => Ok arr'
      | Raise _ => Raise process_func_error
      end
  | None => Ok arr
  end.

End Pipeline.

(** Configurations that switch on one stage and leave every other stage at
    the ['no'] sentinel. *)
Definition only_transform (mode : string) : properties :=
  Properties (Some mode) (Some "no"%string) (Some (Str "no")) (Some (Str "no")).

Definition only_normalize (mode : string) : properties :=
  Properties (Some "no"%string) (Some mode) (Some (Str "no")) (Some (Str "no")).

(** The mode string written 'hiccups:P:W' for two integers. *)
Definition hiccups_mode (P W : Z) : string :=
  String.append "hiccups:"
    (String.append (str_of_int P) (String.append ":" (str_of_int W))).

(** What the string tests and the parameter parsing of
    [__normalize_matrix] give for 'hiccups:P:W': the mode is none of the
    other modes, it matches the pattern, and the parameters are read. *)
Definition reads_hiccups (P W : Z) : bool :=
  let mode := hiccups_mode P W in
  negb (String.eqb mode "no")
  && negb (String.eqb mode "total")
  && negb (String.eqb mode "expect")
  && negb (String.eqb mode "zscore")
  && re_match_hiccups mode
  && match hiccups_params mode with
     | Ok (p, w) => (p =? W)%Z && (w =? P)%Z
     | Raise _ => false
     end.

Definition digits_1_9 : list Z := [1; 2; 3; 4; 5; 6; 7; 8; 9]%Z.

(** The matrix [[1, 2], [3, 4]]. *)
Definition M2 : ndarray := array [[1; 2]; [3; 4]]%R.





(** Two regions of a kernel of half-width [w]: the central square of
    half-width [p], and the parts of row [w] and column [w] at indices
    below [w - p] or from [w + 2p - 1] on. *)
Definition in_inner_square (p w : Z) (i j : nat) : bool :=
  (w - p <=? Z.of_nat i) && (Z.of_nat i <=? w + p)
  && (w - p <=? Z.of_nat j) && (Z.of_nat j <=? w + p).

Definition in_cross_arms (p w : Z) (i j : nat) : bool :=
  ((Z.of_nat j =? w)
   && ((Z.of_nat i <? w - p) || (w + 2 * p - 1 <=? Z.of_nat i)))
  || ((Z.of_nat i =? w)
      && ((Z.of_nat j <? w - p) || (w + 2 * p - 1 <=? Z.of_nat j))).

Definition indicator (b : bool) : R := if b then 1%R else 0%R.

(** The configuration with one of the four entries of [props] and the
    three other keys absent. *)
Definition transform_of (props : properties) : properties :=
  Properties (transform props) None None None.

Definition normalize_of (props : properties) : properties :=
  Properties None (normalize props) None None.

Definition gaussian_sigma_of (props : properties) : properties :=
  Properties None None (gaussian_sigma props) None.

Definition process_func_of (props : properties) : properties :=
  Properties None None None (process_func props).

(** Stand-ins for [gaussian_filter] and [eval] where neither is reached:
    a call of either would be an error. *)
Definition unused_gaussian_filter (_ : ndarray) (_ : value) : outcome ndarray :=
  Raise (TypeError "gaussian_filter").

Definition unused_eval (_ : string) : outcome value :=
  Raise (TypeError "eval").

End FetchHiC.

(* ================================================================== *)
(** * [coolbox/core/coverage/hicpeaks.py] *)
(* ================================================================== *)

Module HiCPeaks.

Import Py.
Local Open Scope Z_scope.

(** The named tuple [LoopInterval]. *)
Record LoopInterval : Type := Loop {
  chr1 : string; x1 : Z; x2 : Z;
  chr2 : string; y1 : Z; y2 : Z;
  color : string
}.

(** ** The [intervaltree] package *)

(** [Interval(begin, end, data)] *)
Record Interval : Type := MkInterval { i_begin : Z; i_end : Z; data : LoopInterval }.

Definition loop_eqb (a b : LoopInterval) : bool :=
  String.eqb (chr1 a) (chr1 b) && (x1 a =? x1 b) && (x2 a =? x2 b)
  && String.eqb (chr2 a) (chr2 b) && (y1 a =? y1 b) && (y2 a =? y2 b)
  && String.eqb (color a) (color b).

Definition interval_eqb (a b : Interval) : bool :=
  (i_begin a =? i_begin b) && (i_end a =? i_end b) && loop_eqb (data a) (data b).

(** Comparison of tuples, field after field. *)
Definition then_cmp (c : comparison) (rest : comparison) : comparison :=
  match c with
  | Eq => rest
  | _ => c
  end.

Definition loop_cmp (a b : LoopInterval) : comparison :=
  then_cmp (String.compare (chr1 a) (chr1 b))
  (then_cmp (x1 a ?= x1 b)
  (then_cmp (x2 a ?= x2 b)
  (then_cmp (String.compare (chr2 a) (chr2 b))
  (then_cmp (y1 a ?= y1 b)
  (then_cmp (y2 a ?= y2 b)
            (String.compare (color a) (color b))))))).

(** [Interval.__cmp__]: by [(begin, end)], then by [data]. *)
Definition interval_cmp (a b : Interval) : comparison :=
  then_cmp (i_begin a ?= i_begin b)
  (then_cmp (i_end a ?= i_end b) (loop_cmp (data a) (data b))).

Definition interval_leb (a b : Interval) : bool :=
  match interval_cmp a b with
  | Gt => false
  | _ => true
  end.

(** An [IntervalTree] is a set of intervals. *)
Definition IntervalTree : Type := list Interval.

Definition tree_mem (iv : Interval) (t : IntervalTree) : bool :=
  existsb (interval_eqb iv) t.

(** [tree.add(interval)] *)
Definition tree_add (t : IntervalTree) (iv : Interval) : outcome IntervalTree :=
  if tree_mem iv t then Ok t
  else if i_end iv <=? i_begin iv then
    Raise (ValueError "IntervalTree: Null Interval objects not allowed in IntervalTree")
  else Ok (t ++ [iv]).

(** [tree[start:stop]]: the intervals that overlap [start, stop). *)
Definition tree_overlap (t : IntervalTree) (start stop : Z) : list Interval :=
  if stop <=? start then []
  else filter (fun iv => (i_begin iv <? stop) && (start <? i_end iv)) t.

(** [sorted(xs)] *)
Fixpoint insert_sorted (iv : Interval) (l : list Interval) : list Interval :=
  match l with
  | [] => [iv]
  | x :: rest => if interval_leb iv x then iv :: l else x :: insert_sorted iv rest
  end.

Definition sorted (l : list Interval) : list Interval :=
  fold_right insert_sorted [] l.

(** ** The dictionary [interval_tree]: chromosome name to tree *)

Definition dict : Type := list (string * IntervalTree).

Fixpoint dict_get (d : dict) (k : string) : option IntervalTree :=
  match d with
  | [] => None
  | (k', v) :: rest => if String.eqb k k' then Some v else dict_get rest k
  end.

Definition dict_contains (d : dict) (k : string) : bool :=
  match dict_get d k with
  | Some _ => true
  | None => false
  end.

Fixpoint dict_set (d : dict) (k : string) (v : IntervalTree) : dict :=
  match d with
  | [] => [(k, v)]
  | (k', v') :: rest =>
      if String.eqb k k' then (k, v) :: rest else (k', v') :: dict_set rest k v
  end.

(** [d[k]] *)
Definition dict_item (d : dict) (k : string) : outcome IntervalTree :=
  match dict_get d k with
  | Some v => Ok v
  | None => Raise (KeyError k)
  end.

(** ** Helpers of [coolbox.utilities] *)

Definition hex_digit (n : Z) : ascii :=
  if n <? 10 then ascii_of_nat (Z.to_nat (48 + n))
  else ascii_of_nat (Z.to_nat (87 + n)).

Definition hex2 (n : Z) : string :=
  String (hex_digit ((n / 16) mod 16)) (String (hex_digit (n mod 16)) EmptyString).

(** Modelled from the spec: [rgb2hex] of [coolbox.utilities], which is not
    among the source files.  The spec: the 7th field "is interpreted as an
    R,G,B triple and converted to a hex color string", with 255,0,0 giving
    "#ff0000": a hash sign and two lower-case hexadecimal digits per
    component.  It is called as [rgb2hex( *rgb )], which is a [TypeError]
    unless [rgb] holds three values. *)
Definition rgb2hex (rgb : list Z) : outcome string :=
  match rgb with
  | [r; g; b] => Ok (String "#" (hex2 r ++ hex2 g ++ hex2 b))
  | _ => Raise (TypeError "rgb2hex() takes 3 positional arguments")
  end.

(** The lines a file object yields: each ends with its newline, except
    possibly the last. *)
Fixpoint lines_from (s cur : string) : list string :=
  match s with
  | EmptyString =>
      match cur with EmptyString => [] | _ => [str_rev cur] end
  | String c rest =>
      if Ascii.eqb c newline then str_rev (String c cur) :: lines_from rest EmptyString
      else lines_from rest (String c cur)
  end.

Definition readlines (content : string) : list string := lines_from content EmptyString.

(** [enumerate(xs)] *)
Fixpoint enumerate_from {A : Type} (n : nat) (xs : list A) : list (nat * A) :=
  match xs with
  | [] => []
  | x :: rest => (n, x) :: enumerate_from (S n) rest
  end.

Definition DEFAULT_COLOR : string := "#2255ff".

(** [fields[idx]] *)
Definition list_item (fields : list string) (idx : nat) : outcome string :=
  match nth_error fields idx with
  | Some f => Ok f
  | None => Raise (IndexError "list index out of range")
  end.

(** [__is_header(line)] *)
Definition __is_header (line : string) : outcome bool :=
  let fields := str_split_ws line in
  for_each [1; 2; 4; 5]%nat
    (fun (found : bool) (idx : nat) =>
       if found then Ok true
       else f <- list_item fields idx ;; Ok (negb (str_isdigit f)))
    false.

Section Chromosomes.

(** [change_chrom_names] of [coolbox.utilities] is not among the source
    files; the code below is independent of what it returns. *)
Variable change_chrom_names : string -> string.

(** One turn of the loop of [__process_loop_file], after the header test. *)
Definition process_line (interval_tree : dict) (line : string) : outcome dict :=
  match str_split_ws line with
  | c1 :: sx1 :: sx2 :: c2 :: sy1 :: sy2 :: other =>
      vx1 <- int sx1 ;;
      vx2 <- int sx2 ;;
      vy1 <- int sy1 ;;
      vy2 <- int sy2 ;;
      if negb (String.eqb c1 c2) then Ok interval_tree
      else
        let chromosome :=
          if negb (str_startswith "chr" c1) then change_chrom_names c1 else c1 in
        let interval_tree :=
          if negb (dict_contains interval_tree chromosome)
          then dict_set interval_tree chromosome []
          else interval_tree in
        col <- match other with
               | [] => Ok DEFAULT_COLOR
               | o :: _ =>
                   rgb <- map_outcome int (str_split "," o) ;;
                   rgb2hex rgb
               end ;;
        let loop := Loop c1 vx1 vx2 c2 vy1 vy2 col in
        t <- dict_item interval_tree chromosome ;;
        t' <- tree_add t (MkInterval vx1 vy2 loop) ;;
        Ok (dict_set interval_tree chromosome t')
  | _ => Raise (ValueError "not enough values to unpack (expected at least 6)")
  end.

(** [__process_loop_file()] on a file with the given content. *)
Definition __process_loop_file (content : string) : outcome dict :=
  for_each (enumerate_from 0 (readlines content))
    (fun (interval_tree : dict) (numbered : nat * string) =>
       let '(idx, line) := numbered in
       header <- (if (idx =? 0)%nat then __is_header line else Ok false) ;;
       if header then Ok interval_tree else process_line interval_tree line)
    [].

(** The sequence the [for] loop of [plot] runs over:
    [sorted(self.interval_tree[chrom_region][start_fetch:end_fetch])].
    [fetch_region] is [self.track.fetch_region] when the track has that
    attribute. *)
Definition plot_intervals (interval_tree : dict) (fetch_region : option (Z * Z))
    (chrom_region : string) (start_region end_region : Z) : outcome (list Interval) :=
  let chrom_region :=
    if negb (dict_contains interval_tree chrom_region)
    then change_chrom_names chrom_region else chrom_region in
  let '(start_fetch, end_fetch) :=
    match fetch_region with
    | Some region => region
    | None => (start_region, end_region)
    end in
  t <- dict_item interval_tree chrom_region ;;
  Ok (sorted (tree_overlap t start_fetch end_fetch)).

(** The loops drawn: [loop = intval.data] for each interval of the loop. *)
Definition plot_loops (interval_tree : dict) (fetch_region : option (Z * Z))
    (chrom_region : string) (start_region end_region : Z)
  : outcome (list LoopInterval) :=
  ivs <- plot_intervals interval_tree fetch_region chrom_region start_region end_region ;;
  Ok (map data ivs).

End Chromosomes.

(** ** The box of a loop *)

Definition STYLE_TRIANGULAR : string := "triangular".
Definition STYLE_MATRIX : string := "matrix".
Definition STYLE_WINDOW : string := "window".

(** [__get_position_and_size(start1, end1, start2, end2, style, side)]
    returns [x, y, (w, h)].  The coordinates are Python integers; [/] is
    the division of real numbers.  For a style that is none of the three,
    no branch assigns [x] and the [return] is an [UnboundLocalError]:
    that outcome is [None]. *)
Definition __get_position_and_size (start1 end1 start2 end2 : Z)
    (style side : string) : option (R * R * (R * R)) :=
  if String.eqb style STYLE_TRIANGULAR || String.eqb style STYLE_WINDOW then
    let m1 := (IZR (start1 + end1) / 2)%R in
    let m2 := (IZR (start2 + end2) / 2)%R in
    let x := ((m1 + m2) / 2)%R in
    let y := (x - m1)%R in
    let w := ((IZR (end2 - start2) / 2) / cos (PI / 4))%R in
    let h := ((IZR (end1 - start1) / 2) / cos (PI / 4))%R in
    Some (x, y, (w, h))
  else if String.eqb style STYLE_MATRIX then
    if String.eqb side "upper" then
      let x := (IZR (start2 + end2) / 2)%R in
      let y := (IZR (start1 + end1) / 2)%R in
      let w := IZR (end2 - start2) in
      let h := IZR (end1 - start1) in
      Some (x, y, (w, h))
    else
      let x := (IZR (start1 + end1) / 2)%R in
      let y := (IZR (start2 + end2) / 2)%R in
      let w := IZR (end1 - start1) in
      let h := IZR (end2 - start2) in
      Some (x, y, (w, h))
  else None.

(** ** Vocabulary for the properties of the index *)

(** The key a loop is stored under. *)
Definition index_key (change_chrom_names : string -> string)
    (loop : LoopInterval) : string :=
  if negb (str_startswith "chr" (chr1 loop)) then change_chrom_names (chr1 loop)
  else chr1 loop.

(** An interval as [__process_loop_file] stores it under [key]: it spans
    from the start of the first anchor to the end of the second, of one
    chromosome, and is not empty. *)
Definition well_formed_interval (change_chrom_names : string -> string)
    (key : string) (iv : Interval) : Prop :=
  i_begin iv = x1 (data iv) /\ i_end iv = y2 (data iv)
  /\ chr1 (data iv) = chr2 (data iv)
  /\ i_begin iv < i_end iv
  /\ key = index_key change_chrom_names (data iv).

Definition well_indexed (change_chrom_names : string -> string) (d : dict) : Prop :=
  forall key tree iv, dict_get d key = Some tree -> In iv tree ->
                      well_formed_interval change_chrom_names key iv.

(** A line [process_line] cannot read: fewer than six fields, or a
    coordinate that [int] rejects. *)
Definition unreadable (line : string) : bool :=
  match str_split_ws line with
  | _ :: sx1 :: sx2 :: _ :: sy1 :: sy2 :: _ =>
      raises (int sx1) || raises (int sx2) || raises (int sy1) || raises (int sy2)
  | _ => true
  end.



(** The text "chr1\t100\t200\tchr1\t500\t600\t255,0,0\n". *)
Definition one_loop_file : string :=
  "chr1" ++ String tab "100" ++ String tab "200" ++ String tab "chr1"
  ++ String tab "500" ++ String tab "600" ++ String tab "255,0,0"
  ++ String newline "".

Definition red_loop : LoopInterval := Loop "chr1" 100 200 "chr1" 500 600 "#ff0000".

(** The index of [one_loop_file]. *)
Definition one_loop_index : dict :=
  [("chr1"%string, [MkInterval 100 600 red_loop])].

(** Lines used as examples: a header, a line with two chromosomes, a line
    with five fields, and a line whose second anchor ends before the first
    one starts. *)
Definition header_line : string :=
  "chr1" ++ String tab "x1" ++ String tab "x2" ++ String tab "chr2"
  ++ String tab "y1" ++ String tab "y2" ++ String newline "".

Definition two_chromosome_line : string :=
  "chr1" ++ String tab "1" ++ String tab "2" ++ String tab "chr2"
  ++ String tab "3" ++ String tab "4" ++ String newline "".

Definition short_line : string :=
  "chr1" ++ String tab "1" ++ String tab "2" ++ String tab "chr1"
  ++ String tab "3" ++ String newline "".

Definition backwards_line : string :=
  "chr1" ++ String tab "600" ++ String tab "700" ++ String tab "chr1"
  ++ String tab "100" ++ String tab "200" ++ String newline "".

End HiCPeaks.

(* ================================================================== *)
(** * [coolbox/core/coverage/base.py]: construction of a coverage *)
(* ================================================================== *)

Module CoverageBase.

Import Py.
Local Open Scope string_scope.

(** A value of a properties dictionary. *)
Inductive pvalue : Type :=
| PNone
| PBool (b : bool)
| PStr (s : string)
| PInt (n : Z)
| PFloat (x : R).

(** A Python [dict] with string keys, in insertion order. *)
Definition pdict : Type := list (string * pvalue).

(** [d.get(k)] (no entry gives Python's [None], here Rocq's [None]). *)
Fixpoint pget (d : pdict) (k : string) : option pvalue :=
  match d with
  | [] => None
  | (k', v) :: rest => if String.eqb k k' then Some v else pget rest k
  end.

(** [d[k] = v]: an existing key keeps its place. *)
Fixpoint pset (d : pdict) (k : string) (v : pvalue) : pdict :=
  match d with
  | [] => [(k, v)]
  | (k', v') :: rest =>
      if String.eqb k k' then (k, v) :: rest else (k', v') :: pset rest k v
  end.

(** [d.update(other)], and the loop [for f in stack: d[f.key] = f.value]. *)
Definition pupdate (d other : pdict) : pdict :=
  fold_left (fun acc kv => pset acc (fst kv) (snd kv)) other d.

(** The class of the object under construction: [Coverage] itself or a
    class that derives from it directly. *)
Inductive cls : Type :=
| CoverageClass
| Subclass (name : string).

Definition class_name (c : cls) : string :=
  match c with
  | CoverageClass => "Coverage"
  | Subclass name => name
  end.

(** The class attributes [_counts]: the one of [Coverage], and the ones
    the subclasses have of their own. *)
Record counters : Type := Counters {
  coverage_counts : option nat;
  own_counts : list (string * nat)
}.

Fixpoint lookup_count (l : list (string * nat)) (k : string) : option nat :=
  match l with
  | [] => None
  | (k', n) :: rest => if String.eqb k k' then Some n else lookup_count rest k
  end.

Fixpoint store_count (l : list (string * nat)) (k : string) (n : nat)
  : list (string * nat) :=
  match l with
  | [] => [(k, n)]
  | (k', n') :: rest =>
      if String.eqb k k' then (k, n) :: rest else (k', n') :: store_count rest k n
  end.

(** [cls._counts], looked up in the class and then in [Coverage]. *)
Definition counts_of (st : counters) (c : cls) : option nat :=
  match c with
  | CoverageClass => coverage_counts st
  | Subclass name =>
      match lookup_count (own_counts st) name with
      | Some n => Some n
      | None => coverage_counts st
      end
  end.

Definition set_counts (st : counters) (c : cls) (n : nat) : counters :=
  match c with
  | CoverageClass => Counters (Some n) (own_counts st)
  | Subclass name => Counters (coverage_counts st) (store_count (own_counts st) name n)
  end.

(** [__new__(cls)] *)
Definition __new__ (st : counters) (c : cls) : counters :=
  match counts_of st c with
  | Some n => set_counts st c (n + 1)
  | None => set_counts st c 1
  end.

(** [cls._counts] once [__new__] has run one more time. *)
Definition next_count (st : counters) (c : cls) : nat :=
  match counts_of st c with
  | Some n => n + 1
  | None => 1
  end.

(** [__bool2str()]: the loop over [self.properties.items()]. *)
Definition bool2str_item (props : pdict) (item : string * pvalue) : pdict :=
  match snd item with
  | PBool true => pset props (fst item) (PStr "yes")
  | PBool false => pset props (fst item) (PStr "no")
  | _ => props
  end.

Definition __bool2str (props : pdict) : pdict :=
  fold_left bool2str_item props props.

(** The value [__bool2str] leaves in the place of a value, and the item in
    the place of an item. *)
Definition yes_no (v : pvalue) : pvalue :=
  match v with
  | PBool true => PStr "yes"
  | PBool false => PStr "no"
  | _ => v
  end.

Definition yes_no_item (kv : string * pvalue) : string * pvalue :=
  (fst kv, yes_no (snd kv)).

Definition is_bool (v : pvalue) : bool :=
  match v with
  | PBool _ => true
  | _ => false
  end.

(** What a constructor does: it returns, fails an [assert], or raises. *)
Inductive constructed (A : Type) : Type :=
| Built (a : A)
| AssertionError (msg : string)
| Raised (e : exn).

Arguments Built {A} a.
Arguments AssertionError {A} msg.
Arguments Raised {A} e.

(** [Coverage.__init__(self, properties_dict)] for an object of class [c],
    after [__new__]: the dictionary [self.properties] when it returns.
    [features] is what [get_feature_stack()] holds, as (key, value) pairs;
    [coolbox.utilities] is not among the source files. *)
Definition __init__ (st : counters) (c : cls) (features : pdict)
    (properties_dict : pdict) : constructed pdict :=
  let props := __bool2str properties_dict in
  let default_name :=
    PStr (class_name c ++ "."
          ++ str_of_int (Z.of_nat (match counts_of st c with
                                   | Some n => n
                                   | None => 0
                                   end))) in
  let named (name : pvalue) := Built (pupdate (pset props "name" name) features) in
  match pget props "name" with
  | None | Some PNone => named default_name
  | Some (PStr name) => named (PStr name)
  | Some _ => AssertionError "Coverage name must be a `str`."
  end.

(** [Coverage(properties_dict)]: [__new__], then [__init__]. *)
Definition construct (st : counters) (c : cls) (features : pdict)
    (properties_dict : pdict) : counters * constructed pdict :=
  let st := __new__ st c in
  (st, __init__ st c features properties_dict).

End CoverageBase.

(* ================================================================== *)
(** * [HiCPeaks.__init__] *)
(* ================================================================== *)

Module HiCPeaksInit.

Import Py CoverageBase HiCPeaks.
Local Open Scope string_scope.

(** The defaults of [HiCPeaks.__init__]. *)
Definition default_properties (file_ : pvalue) : pdict :=
  [("file", file_);
   ("color", PStr "bed_rgb");
   ("alpha", PFloat 0.6%R);
   ("line_width", PInt 5);
   ("line_style", PStr "solid");
   ("fill", PBool false);
   ("fill_color", PStr "bed_rgb");
   ("side", PStr "both")].

Section Init.

(** [opener] and [change_chrom_names] of [coolbox.utilities] are not among
    the source files: [opener] gives the text of the file a value names, or
    raises. *)
Variable opener : pvalue -> outcome string.
Variable change_chrom_names : string -> string.

(** [opener(self.properties['file'])] *)
Definition open_file (props : pdict) : outcome string :=
  match pget props "file" with
  | Some path => opener path
  | None => Raise (KeyError "file")
  end.

(** [HiCPeaks(file_, **kwargs)]: the properties and the interval tree of
    the new object. *)
Definition HiCPeaks_init (st : counters) (features : pdict)
    (file_ : pvalue) (kwargs : pdict) : counters * constructed (pdict * dict) :=
  let properties_dict := pupdate (default_properties file_) kwargs in
  let '(st, base) := construct st (Subclass "HiCPeaks") features properties_dict in
  (st,
   match base with
   | Built props =>
       match (content <- open_file props ;;
              __process_loop_file change_chrom_names content) with
       | Ok interval_tree => Built (props, interval_tree)
       | Raise e => Raised e
       end
   | AssertionError msg => AssertionError msg
   | Raised e => Raised e
   end).

End Init.

(** [fill = True if self.properties['fill'] == 'yes' else False], as
    [plot] reads it. *)
Definition fill_flag (props : pdict) : bool :=
  match pget props "fill" with
  | Some (PStr s) => String.eqb s "yes"
  | _ => false
  end.

(** What the keyword [fill] of the constructor asks for: [True], or the
    string 'yes' itself; nothing, or any other value, is no filling. *)
Definition fill_keyword (kwargs : pdict) : bool :=
  match pget kwargs "fill" with
  | Some (PBool b) => b
  | Some (PStr s) => String.eqb s "yes"
  | _ => false
  end.

(** An [opener] that finds the text [one_loop_file] under every name, no
    class counted yet, and the properties of [HiCPeaks("loops.txt",
    fill=True)] made then. *)
Definition one_loop_opener (_ : pvalue) : outcome string := Ok one_loop_file.

Definition no_counts : counters := Counters None [].

Definition filled_properties : pdict :=
  [("file", PStr "loops.txt");
   ("color", PStr "bed_rgb");
   ("alpha", PFloat 0.6%R);
   ("line_width", PInt 5);
   ("line_style", PStr "solid");
   ("fill", PStr "yes");
   ("fill_color", PStr "bed_rgb");
   ("side", PStr "both");
   ("name", PStr "HiCPeaks.1")].

End HiCPeaksInit.

(* ================================================================== *)
(** * [coolbox/plots/track/bam.py]: [parse_samtools_cov] *)
(* ================================================================== *)

Module SamtoolsCoverage.

Import Py Np.
Local Open Scope string_scope.
Local Open Scope list_scope.

(** A [str] of this file, as the list of its code points: the histogram
    [samtools coverage] prints is drawn with characters outside ASCII. *)
Definition text : Type := list N.

(** The code points of ">", " ", "%" and of the box-drawing bar that
    separates the fields of a line of the histogram. *)
Definition GREATER : N := 62.
Definition SPACE : N := 32.
Definition PERCENT : N := 37.
Definition BAR : N := 9474.

Definition mem_code (c : N) (chars : text) : bool := existsb (N.eqb c) chars.

Fixpoint drop_codes (chars s : text) : text :=
  match s with
  | [] => []
  | c :: rest => if mem_code c chars then drop_codes chars rest else s
  end.

(** [s.strip(chars)] *)
Definition text_strip (chars s : text) : text :=
  rev (drop_codes chars (rev (drop_codes chars s))).

(** [s.split(sep)] for a separator of one code point. *)
Fixpoint text_split_on (sep : N) (s cur : text) : list text :=
  match s with
  | [] => [rev cur]
  | c :: rest =>
      if N.eqb c sep then rev cur :: text_split_on sep rest []
      else text_split_on sep rest (c :: cur)
  end.

Definition text_split (sep : N) (s : text) : list text := text_split_on sep s [].

(** [xs[s]] for a list and a slice with step 1. *)
Definition list_slice {A : Type} (s : slice) (xs : list A) : list A :=
  firstn (slice_len s (List.length xs)) (skipn (slice_lo s (List.length xs)) xs).

(** [left, mid, _ = parts] (the message for too few values also tells how
    many there were). *)
Definition unpack3 {A : Type} (parts : list A) : outcome (A * A * A) :=
  match parts with
  | [a; b; c] => Ok (a, b, c)
  | _ :: _ :: _ :: _ :: _ => Raise (ValueError "too many values to unpack (expected 3)")
  | _ => Raise (ValueError "not enough values to unpack")
  end.

(** The dictionary [covs]: integer keys in insertion order. *)
Definition covs_dict : Type := list (nat * R).

Fixpoint covs_get (covs : covs_dict) (i : nat) : option R :=
  match covs with
  | [] => None
  | (j, v) :: rest => if Nat.eqb i j then Some v else covs_get rest i
  end.

(** [covs[i]] *)
Definition covs_item (covs : covs_dict) (i : nat) : outcome R :=
  match covs_get covs i with
  | Some v => Ok v
  | None => Raise (KeyError (str_of_int (Z.of_nat i)))
  end.

(** [covs[i] = v] *)
Fixpoint covs_set (covs : covs_dict) (i : nat) (v : R) : covs_dict :=
  match covs with
  | [] => [(i, v)]
  | (j, w) :: rest =>
      if Nat.eqb i j then (i, v) :: rest else (j, w) :: covs_set rest i v
  end.

(** [covs.setdefault(i, v)] *)
Definition covs_setdefault (covs : covs_dict) (i : nat) (v : R) : covs_dict :=
  match covs_get covs i with
  | Some _ => covs
  | None => covs_set covs i v
  end.

(** [sorted(keys)] *)
Fixpoint insert_key (i : nat) (keys : list nat) : list nat :=
  match keys with
  | [] => [i]
  | j :: rest => if Nat.leb i j then i :: keys else j :: insert_key i rest
  end.

Definition sorted_keys (keys : list nat) : list nat :=
  fold_right insert_key [] keys.

Section Parse.

(** [float(s)]: the number a string denotes, or a [ValueError]. *)
Variable float : text -> outcome R.

(** The body of the loop over the characters of [mid]. *)
Definition mark_column (percent : R) (covs : covs_dict) (ic : nat * N)
  : outcome covs_dict :=
  let '(i, c) := ic in
  let covs := covs_setdefault covs i 0%R in
  if negb (N.eqb c SPACE) then
    v <- covs_item covs i ;;
    if is_zero v then Ok (covs_set covs i percent) else Ok covs
  else Ok covs.

(** The body of the loop over the lines. *)
Definition parse_line (covs : covs_dict) (line : text) : outcome covs_dict :=
  ' (left_, mid, _) <- unpack3 (text_split BAR line) ;;
  percent <- float (text_strip [GREATER; SPACE; PERCENT] left_) ;;
  for_each (HiCPeaks.enumerate_from 0 mid) (mark_column percent) covs.

(** [parse_samtools_cov(lines)] *)
Definition parse_samtools_cov (lines : list text) : outcome (list R) :=
  covs <- for_each (list_slice (Slice (Some 1%Z) (Some (-1)%Z)) lines) parse_line [] ;;
  map_outcome (covs_item covs) (sorted_keys (map fst covs)).

(** What a line of the histogram holds: its percentage and its columns. *)
Definition read_line (line : text) : outcome (R * text) :=
  ' (left_, mid, _) <- unpack3 (text_split BAR line) ;;
  percent <- float (text_strip [GREATER; SPACE; PERCENT] left_) ;;
  Ok (percent, mid).

End Parse.

(** Column [i] of a line is drawn. *)
Definition marked (mid : text) (i : nat) : bool :=
  match nth_error mid i with
  | Some c => negb (N.eqb c SPACE)
  | None => false
  end.

(** The percentage of the first line that draws column [i] with a
    percentage other than zero; zero when there is none. *)
Fixpoint column_value (rows : list (R * text)) (i : nat) : R :=
  match rows with
  | [] => 0%R
  | (percent, mid) :: rest =>
      if marked mid i && negb (is_zero percent) then percent
      else column_value rest i
  end.

Definition width (rows : list (R * text)) : nat :=
  fold_right (fun row w => Nat.max (List.length (snd row)) w) 0%nat rows.

(** ** The values of [covs], column by column

    [keyed a vs] is the dictionary with the keys a, a+1, ... in this order
    and the values [vs]; [mark1], [mark_zip] and [mark_rows] are what one
    character, one line and all the lines make of the values. *)

Definition keyed (a : nat) (vs : list R) : covs_dict :=
  combine (seq a (List.length vs)) vs.

Definition mark1 (percent : R) (c : N) (v : R) : R :=
  if negb (N.eqb c SPACE) && is_zero v then percent else v.

Fixpoint mark_zip (percent : R) (mid : text) (vs : list R) : list R :=
  match mid with
  | [] => vs
  | c :: mid' => mark1 percent c (hd 0%R vs) :: mark_zip percent mid' (tl vs)
  end.

Definition mark_rows (rows : list (R * text)) (vs : list R) : list R :=
  fold_left (fun vs row => mark_zip (fst row) (snd row) vs) rows vs.

(** ** An example

    Three lines: a header, the line ">50%", bar, blank, full block, bar,
    blank, and a footer; and a [float] that reads 50 whatever the string. *)

Definition fifty (_ : text) : outcome R := Ok 50%R.

Definition histogram_line : text :=
  [GREATER; 53; 48; PERCENT; BAR; SPACE; 9608; BAR; SPACE]%N.

Definition histogram : list text := [[]; histogram_line; []].

Definition histogram_rows : list (R * text) := [(50%R, [SPACE; 9608%N])].

End SamtoolsCoverage.

(* ================================================================== *)
(** * Properties of the loop-file index *)
(* ================================================================== *)

Module HiCPeaksProperties.

Import Py HiCPeaks.
Local Open Scope Z_scope.
Local Open Scope string_scope.

Lemma dict_item_missing (d : dict) (k : string) :
  dict_contains d k = false -> dict_item d k = Raise (KeyError k).
Proof.
  unfold dict_contains, dict_item.
  destruct (dict_get d k); [discriminate | reflexivity].
Qed.

(** C7.  Loading the one-line annotation file
    "chr1\t100\t200\tchr1\t500\t600\t255,0,0\n" indexes a single interval
    under the span [100, 600] of chromosome "chr1", and the query
    chrom="chr1", start=50, end=300 yields exactly one LoopInterval, whose
    color is "#ff0000". *)
Theorem one_loop_file_query (change_chrom_names : string -> string) :
  __process_loop_file change_chrom_names one_loop_file
    = Ok [("chr1", [MkInterval 100 600 red_loop])]
  /\ (tree <- __process_loop_file change_chrom_names one_loop_file ;;
      plot_loops change_chrom_names tree None "chr1" 50 300) = Ok [red_loop]
  /\ color red_loop = "#ff0000".
Proof.
  repeat split; vm_compute; reflexivity.
Qed.

(** C10.  When the queried chromosome name is a key of the index neither as
    given nor after [change_chrom_names], the query raises [KeyError] (for
    the changed name); it does not return an empty sequence. *)
Theorem plot_unknown_chromosome_raises
    (change_chrom_names : string -> string) (interval_tree : dict)
    (fetch_region : option (Z * Z)) (chrom : string) (start_region end_region : Z) :
  dict_contains interval_tree chrom = false ->
  dict_contains interval_tree (change_chrom_names chrom) = false ->
  plot_intervals change_chrom_names interval_tree fetch_region
                 chrom start_region end_region
    = Raise (KeyError (change_chrom_names chrom))
  /\ plot_loops change_chrom_names interval_tree fetch_region
                chrom start_region end_region
    = Raise (KeyError (change_chrom_names chrom)).
Proof.
  intros Hverbatim Hchanged.
  assert (Hq : plot_intervals change_chrom_names interval_tree fetch_region
                 chrom start_region end_region
               = Raise (KeyError (change_chrom_names chrom))).
  { unfold plot_intervals. rewrite Hverbatim. cbn [negb].
    destruct fetch_region as [[s e] |];
      rewrite (dict_item_missing _ _ Hchanged); reflexivity. }
  split; [exact Hq |].
  unfold plot_loops. rewrite Hq. reflexivity.
Qed.

Lemma plot_unknown_chromosome_raises_witness :
  plot_intervals (fun c => String.append "chr" c)
                 [("chr1", [MkInterval 100 600 red_loop])] None "7" 50 300
    = Raise (KeyError "chr7")
  /\ plot_loops (fun c => String.append "chr" c)
                [("chr1", [MkInterval 100 600 red_loop])] None "7" 50 300
    = Raise (KeyError "chr7").
Proof.
  apply (plot_unknown_chromosome_raises (fun c => String.append "chr" c)
           [("chr1", [MkInterval 100 600 red_loop])] None "7" 50 300);
    reflexivity.
Defined.

End HiCPeaksProperties.

(* ================================================================== *)
(** * Properties of the normalisation pipeline *)
(* ================================================================== *)

Module FetchHiCProperties.

Import Py Np FetchHiC.
Local Open Scope R_scope.
Local Open Scope string_scope.

(** ** Sums *)

Lemma sum_list_scale (t : R) (l : list R) :
  sum_list (map (fun x => x / t) l) = sum_list l / t.
Proof.
  induction l as [| x l IH]; simpl.
  - unfold Rdiv. ring.
  - rewrite IH. unfold Rdiv. ring.
Qed.

Lemma row_map_array (f : R -> R) (a : ndarray) (i : nat) :
  row (map_array f a) i = map f (row a i).
Proof.
  unfold row. simpl. rewrite map_map. reflexivity.
Qed.

Lemma sum_map_array_scale (t : R) (a : ndarray) :
  sum (map_array (fun x => x / t) a) = sum a / t.
Proof.
  unfold sum. simpl nrows.
  rewrite <- sum_list_scale, map_map.
  f_equal. apply map_ext. intro i.
  rewrite row_map_array. apply sum_list_scale.
Qed.

Lemma is_zero_true (x : R) : is_zero x = true <-> x = 0.
Proof.
  unfold is_zero. destruct (Req_dec_T x 0); split; intro; congruence.
Qed.

Lemma is_zero_false (x : R) : is_zero x = false <-> x <> 0.
Proof.
  unfold is_zero. destruct (Req_dec_T x 0); split; intro; congruence.
Qed.

Lemma is_positive_true (x : R) : is_positive x = true <-> 0 < x.
Proof.
  unfold is_positive. destruct (Rlt_dec 0 x); split; intro; congruence.
Qed.

(** ** Logarithm to base 2 *)

Lemma ln_2_pos : 0 < ln 2.
Proof.
  rewrite <- ln_1. apply ln_increasing; lra.
Qed.

Lemma exp2_log2 (x : R) : 0 < x -> exp2 (log2 x) = x.
Proof.
  intro Hx. unfold exp2, log2, Rpower.
  replace (ln x / ln 2 * ln 2) with (ln x).
  - apply exp_ln, Hx.
  - field. pose proof ln_2_pos. lra.
Qed.

(** ** Shapes and entries *)

Lemma bidx_lt (len i : nat) : (i < len)%nat -> bidx len i = i.
Proof.
  unfold bidx. destruct (Nat.eqb_spec len 1); [lia | reflexivity].
Qed.

Lemma zip_with_same (f : R -> R -> R) (a b : ndarray) :
  shape a = shape b ->
  exists r,
    zip_with f a b = Ok r
    /\ shape r = shape a
    /\ forall i j, (i < nrows a)%nat -> (j < ncols a)%nat ->
                   elt r i j = f (elt a i j) (elt b i j).
Proof.
  unfold shape. intro Hs. injection Hs as Hr Hc.
  unfold zip_with, bshape. rewrite <- Hr, <- Hc, !Nat.eqb_refl.
  eexists. split; [reflexivity |]. split; [reflexivity |].
  intros i j Hi Hj. simpl. rewrite !bidx_lt by assumption. reflexivity.
Qed.

Lemma nth_map_seq (f : nat -> R) (n k : nat) :
  (k < n)%nat -> nth k (map f (seq 0 n)) 0 = f k.
Proof.
  intro Hk.
  rewrite (nth_indep _ 0 (f 0%nat)) by (rewrite length_map, length_seq; exact Hk).
  rewrite map_nth, seq_nth by exact Hk. reflexivity.
Qed.

Lemma nth_map_in (f : R -> R) (l : list R) (k : nat) :
  (k < List.length l)%nat -> nth k (map f l) 0 = f (nth k l 0).
Proof.
  intro Hk.
  rewrite (nth_indep _ 0 (f 0)) by (rewrite length_map; exact Hk).
  apply map_nth.
Qed.

Lemma diagonal_mean_length (M : ndarray) :
  List.length (diagonal_mean M) = nrows M.
Proof.
  unfold diagonal_mean. rewrite length_map, length_seq. reflexivity.
Qed.

Lemma toeplitz_elt (c : list R) (i j : nat) :
  elt (toeplitz c) i j = nth (Z.abs_nat (Z.of_nat i - Z.of_nat j)) c 0.
Proof.
  simpl. destruct (Nat.leb_spec j i); f_equal; lia.
Qed.

(** ** The smallest positive standard deviation *)

Lemma fold_left_Rmin_spec (l : list R) (x : R) :
  In (fold_left Rmin l x) (x :: l)
  /\ forall y, In y (x :: l) -> fold_left Rmin l x <= y.
Proof.
  revert x. induction l as [| a l IH]; intro x; simpl.
  - split; [left; reflexivity |]. intros y [<- | []]. lra.
  - destruct (IH (Rmin x a)) as [Hin Hle]. split.
    + destruct Hin as [Heq | Hin]; [| right; right; exact Hin].
      rewrite <- Heq. unfold Rmin. destruct (Rle_dec x a); auto.
    + intros y [<- | [<- | Hy]].
      * eapply Rle_trans; [apply Hle; left; reflexivity | apply Rmin_l].
      * eapply Rle_trans; [apply Hle; left; reflexivity | apply Rmin_r].
      * apply Hle. right. exact Hy.
Qed.

Lemma min_list_spec (l : list R) :
  l <> [] ->
  exists m, min_list l = Ok m /\ In m l /\ forall y, In y l -> m <= y.
Proof.
  destruct l as [| x l]; [congruence | intros _].
  exists (fold_left Rmin l x). split; [reflexivity |].
  apply fold_left_Rmin_spec.
Qed.

(** ** The donut filter *)

Lemma index_pos_ok (len : nat) (i : Z) :
  (0 <= i < Z.of_nat len)%Z -> index_pos len i = Ok (Z.to_nat i).
Proof.
  intro Hi. unfold index_pos.
  destruct (Z.ltb_spec i (- Z.of_nat len)); [lia |].
  destruct (Z.leb_spec (Z.of_nat len) i); [lia |].
  destruct (Z.ltb_spec i 0); [lia | reflexivity].
Qed.

Lemma full_ok (r c : Z) (v : R) :
  (0 <= r)%Z -> (0 <= c)%Z ->
  full r c v = Ok (Array (Z.to_nat r) (Z.to_nat c) (fun _ _ => v)).
Proof.
  intros Hr Hc. unfold full.
  destruct (Z.ltb_spec r 0); [lia |].
  destruct (Z.ltb_spec c 0); [lia | reflexivity].
Qed.

Lemma setitem_shape (a a' : ndarray) (ri ci : index) (v : R) :
  setitem a ri ci v = Ok a' -> shape a' = shape a.
Proof.
  unfold setitem.
  destruct (index_bounds ri (nrows a)); [| discriminate].
  destruct (index_bounds ci (ncols a)); [| discriminate].
  cbn. intro H. injection H as <-. reflexivity.
Qed.

Lemma setitem_ok (a : ndarray) (ri ci : index) (v : R) :
  raises (index_bounds ri (nrows a)) = false ->
  raises (index_bounds ci (ncols a)) = false ->
  exists a', setitem a ri ci v = Ok a' /\ shape a' = shape a.
Proof.
  intros Hr Hc. unfold setitem.
  destruct (index_bounds ri (nrows a)); [| discriminate].
  destruct (index_bounds ci (ncols a)); [| discriminate].
  cbn. eexists. split; reflexivity.
Qed.

Lemma range_bounds_ok (s : slice) (len : nat) :
  raises (index_bounds (Range s) len) = false.
Proof. reflexivity. Qed.

Lemma at_bounds_ok (i : Z) (len : nat) :
  (0 <= i < Z.of_nat len)%Z -> raises (index_bounds (At i) len) = false.
Proof.
  intro Hi. unfold index_bounds. rewrite index_pos_ok by exact Hi. reflexivity.
Qed.

(** For [w >= 0] the kernel is built, whatever [p] is, and is a square of
    side [2w + 1]. *)
Lemma donut_kernel_shape (p w : Z) :
  (0 <= w)%Z ->
  exists k, __donut_kernel p w = Ok k
            /\ shape k = (Z.to_nat (2 * w + 1), Z.to_nat (2 * w + 1)).
Proof.
  intro Hw. unfold __donut_kernel, ones, zeros.
  rewrite !full_ok by lia. cbn [bind].
  set (z := Array _ _ (fun _ _ => 0)).
  assert (Hz : shape z = (Z.to_nat (2 * w + 1), Z.to_nat (2 * w + 1)))
    by reflexivity.
  assert (Hat : forall a, shape a = shape z ->
            raises (index_bounds (At w) (nrows a)) = false
            /\ raises (index_bounds (At w) (ncols a)) = false).
  { intros a Ha.
    pose proof (f_equal fst Ha) as Hr. pose proof (f_equal snd Ha) as Hc.
    unfold shape in Hr, Hc. cbn [fst snd nrows ncols z] in Hr, Hc.
    rewrite Hr, Hc. split; apply at_bounds_ok; lia. }
  destruct (setitem_ok z (from_to (w - p) (w + p + 1))
              (from_to (w - p) (w + p + 1)) 1) as [k2 [-> Hk2]];
    try apply range_bounds_ok.
  cbn [bind].
  destruct (setitem_ok z (up_to (w - p)) (At w) 1) as [k3a [-> Hk3a]];
    [apply range_bounds_ok | apply Hat; reflexivity |].
  cbn [bind].
  destruct (setitem_ok k3a (At w) (up_to (w - p)) 1) as [k3b [-> Hk3b]];
    [apply Hat; exact Hk3a | apply range_bounds_ok |].
  cbn [bind]. rewrite Hk3a in Hk3b.
  destruct (setitem_ok k3b (At w) (from_to (w + 2 * p - 1) (2 * w + 1)) 1)
    as [k3c [-> Hk3c]];
    [apply Hat; exact Hk3b | apply range_bounds_ok |].
  cbn [bind]. rewrite Hk3b in Hk3c.
  destruct (setitem_ok k3c (from_to (w + 2 * p - 1) (2 * w + 1)) (At w) 1)
    as [k3 [-> Hk3]];
    [apply range_bounds_ok | apply Hat; exact Hk3c |].
  cbn [bind]. rewrite Hk3c in Hk3.
  unfold subtract.
  destruct (zip_with_same Rminus (Array (Z.to_nat (2 * w + 1)) (Z.to_nat (2 * w + 1))
                                    (fun _ _ => 1)) k2)
    as [k12 [-> [Hk12 _]]]; [symmetry; exact Hk2 |].
  cbn [bind].
  destruct (zip_with_same Rminus k12 k3) as [k [-> [Hk _]]];
    [rewrite Hk12, Hk3; reflexivity |].
  exists k. split; [reflexivity |]. rewrite Hk, Hk12. reflexivity.
Qed.

Lemma center_slice (w : Z) (n : nat) :
  (2 <= w)%Z ->
  let s := Slice (Some w) (Some (w + Z.of_nat n)%Z) in
  let side := Z.to_nat (Z.of_nat n + 2 * (w - 1))%Z in
  slice_lo s side = Z.to_nat w /\ slice_len s side = n.
Proof.
  intro Hw. unfold slice_len, slice_hi, slice_lo, clip_bound. cbn [start stop].
  destruct (Z.ltb_spec w 0); [lia |].
  destruct (Z.ltb_spec (w + Z.of_nat n) 0); [lia |].
  split; lia.
Qed.

(** For [w >= 2] the padded array holds a square [m], and the result of
    [apply_donut] has the shape of [m]. *)
Lemma apply_donut_shape (w : Z) (kernel m : ndarray) :
  (2 <= w)%Z -> nrows m = ncols m ->
  exists r, apply_donut w kernel m = Ok r /\ shape r = shape m.
Proof.
  intros Hw Hsq. unfold apply_donut, zeros, idx_center.
  rewrite full_ok by lia. cbn [bind].
  unfold setblock. cbn [nrows ncols].
  rewrite <- Hsq.
  destruct (center_slice w (nrows m) Hw) as [Hlo Hlen].
  cbv zeta in Hlo, Hlen. rewrite Hlen.
  unfold stretches. rewrite Nat.eqb_refl. cbn [orb andb bind].
  eexists. split; [reflexivity |].
  unfold shape, getblock. cbn [nrows ncols convolve2d_same].
  rewrite Hlen, <- Hsq. reflexivity.
Qed.

(** The 'hiccups' branch of [__normalize_matrix], once the parameters are
    read, returns a matrix of the input's shape when [w >= 2]. *)
Lemma hiccups_branch_shape (mode : string) (p w : Z) (M : ndarray) :
  String.eqb mode "total" = false ->
  String.eqb mode "expect" = false ->
  String.eqb mode "zscore" = false ->
  re_match_hiccups mode = true ->
  hiccups_params mode = Ok (p, w) ->
  (2 <= w)%Z -> nrows M = ncols M ->
  exists res, __normalize_matrix mode M = Ok res /\ shape res = shape M.
Proof.
  intros H1 H2 H3 Hre Hpw Hw Hsq.
  unfold __normalize_matrix. rewrite H1, H2, H3, Hre, Hpw. cbn [bind].
  destruct (donut_kernel_shape p w) as [k [-> _]]; [lia |]. cbn [bind].
  destruct (apply_donut_shape w k M Hw Hsq) as [md [-> Hmd]]. cbn [bind].
  set (T := toeplitz (diagonal_mean M)).
  assert (HT : shape T = shape M).
  { unfold shape, T. simpl. rewrite diagonal_mean_length. congruence. }
  destruct (apply_donut_shape w k T Hw) as [ed [-> Hed]]; [reflexivity |].
  cbn [bind].
  unfold divide, multiply.
  destruct (zip_with_same Rdiv md ed) as [q [Hq [Hqs _]]]; [congruence |].
  rewrite Hq. cbn [bind].
  destruct (zip_with_same Rmult q T) as [e [He [Hes _]]]; [congruence |].
  rewrite He. cbn [bind].
  destruct (zip_with_same Rdiv M e) as [res [Hres [Hress _]]]; [congruence |].
  exists res. split; [exact Hres | exact Hress].
Qed.

(** ** Mode strings with one-digit numbers *)

Lemma reads_hiccups_table :
  forallb (fun P => forallb (reads_hiccups P) digits_1_9) digits_1_9 = true.
Proof. vm_compute. reflexivity. Qed.

Lemma hiccups_mode_digits (P W : Z) :
  (1 <= P <= 9)%Z -> (1 <= W <= 9)%Z ->
  String.eqb (hiccups_mode P W) "no" = false
  /\ String.eqb (hiccups_mode P W) "total" = false
  /\ String.eqb (hiccups_mode P W) "expect" = false
  /\ String.eqb (hiccups_mode P W) "zscore" = false
  /\ re_match_hiccups (hiccups_mode P W) = true
  /\ hiccups_params (hiccups_mode P W) = Ok (W, P).
Proof.
  intros HP HW.
  assert (HPin : In P digits_1_9) by (unfold digits_1_9; simpl; lia).
  assert (HWin : In W digits_1_9) by (unfold digits_1_9; simpl; lia).
  pose proof reads_hiccups_table as Htable.
  rewrite forallb_forall in Htable. specialize (Htable P HPin).
  rewrite forallb_forall in Htable. specialize (Htable W HWin).
  unfold reads_hiccups in Htable. cbv zeta in Htable.
  repeat rewrite andb_true_iff in Htable.
  destruct Htable as [[[[[Hno H1] H2] H3] Hre] Hpw].
  rewrite negb_true_iff in Hno, H1, H2, H3.
  repeat (split; [assumption |]).
  destruct (hiccups_params (hiccups_mode P W)) as [[p w] |]; [| discriminate].
  apply andb_true_iff in Hpw. destruct Hpw as [Hp Hw].
  apply Z.eqb_eq in Hp. apply Z.eqb_eq in Hw. subst. reflexivity.
Qed.

Section Stages.

Variable gaussian_filter : ndarray -> value -> outcome ndarray.
Variable eval : string -> outcome value.

(** With every other stage at ['no'], the pipeline is its one stage. *)
Lemma run_only_normalize (mode : string) (M : ndarray) :
  mode <> "no" ->
  normalize_matrix gaussian_filter eval (only_normalize mode) M
    = __normalize_matrix mode M.
Proof.
  intro Hmode. unfold normalize_matrix, only_normalize. cbn.
  destruct (String.eqb_spec mode "no") as [-> | _]; [contradiction |].
  destruct (__normalize_matrix mode M); reflexivity.
Qed.

Lemma run_only_normalize_b (mode : string) (M : ndarray) :
  String.eqb mode "no" = false ->
  normalize_matrix gaussian_filter eval (only_normalize mode) M
    = __normalize_matrix mode M.
Proof.
  intro Hmode. apply run_only_normalize.
  apply String.eqb_neq. exact Hmode.
Qed.

Lemma transform_unknown (mode : string) (M : ndarray) :
  mode <> "log" -> mode <> "log2" -> mode <> "log10" ->
  __transform_matrix mode M = M.
Proof.
  intros H1 H2 H3. unfold __transform_matrix.
  destruct (String.eqb_spec mode "log10"); [contradiction |].
  destruct (String.eqb_spec mode "log2"); [contradiction |].
  destruct (String.eqb_spec mode "log"); [contradiction |].
  reflexivity.
Qed.

Lemma normalize_unknown (mode : string) (M : ndarray) :
  mode <> "total" -> mode <> "expect" -> mode <> "zscore" ->
  re_match_hiccups mode = false ->
  __normalize_matrix mode M = Ok M.
Proof.
  intros H1 H2 H3 Hre. unfold __normalize_matrix.
  destruct (String.eqb_spec mode "total"); [contradiction |].
  destruct (String.eqb_spec mode "expect"); [contradiction |].
  destruct (String.eqb_spec mode "zscore"); [contradiction |].
  rewrite Hre. reflexivity.
Qed.

(** C9 (as the code has it).  A transform value other than log, log2 and
    log10, and a normalize value other than total, expect and zscore that
    does not start with the pattern "hiccups:.:.", are not errors: each
    behaves as the ['no'] sentinel does, and with both of them the matrix
    is returned unchanged. *)
Theorem unknown_modes_are_ignored
    (t m : string) (other_t other_m : option string) (g f : option value)
    (M : ndarray) :
  t <> "log" -> t <> "log2" -> t <> "log10" ->
  m <> "total" -> m <> "expect" -> m <> "zscore" ->
  re_match_hiccups m = false ->
  normalize_matrix gaussian_filter eval (Properties (Some t) other_m g f) M
    = normalize_matrix gaussian_filter eval (Properties (Some "no") other_m g f) M
  /\ normalize_matrix gaussian_filter eval (Properties other_t (Some m) g f) M
    = normalize_matrix gaussian_filter eval (Properties other_t (Some "no") g f) M
  /\ normalize_matrix gaussian_filter eval
       (Properties (Some t) (Some m) (Some (Str "no")) (Some (Str "no"))) M
    = Ok M.
Proof.
  intros Ht1 Ht2 Ht3 Hm1 Hm2 Hm3 Hre.
  assert (Htr : forall A, __transform_matrix t A = A)
    by (intro A; apply transform_unknown; assumption).
  assert (Hnm : forall A, __normalize_matrix m A = Ok A)
    by (intro A; apply normalize_unknown; assumption).
  repeat split.
  - unfold normalize_matrix. cbn.
    destruct (String.eqb t "no"); [reflexivity | rewrite Htr; reflexivity].
  - unfold normalize_matrix. cbn.
    destruct (String.eqb m "no"); [reflexivity | rewrite Hnm; reflexivity].
  - unfold normalize_matrix. cbn.
    destruct (String.eqb t "no"), (String.eqb m "no");
      rewrite ?Htr, ?Hnm; reflexivity.
Qed.

(** C6.  On a matrix of strictly positive entries, the pipeline with
    transform='log2' and every other stage at ['no'] returns a matrix from
    which the element-wise [2 ** x] gives the original matrix back. *)
Theorem log2_round_trip (M : ndarray) :
  (forall i j, (i < nrows M)%nat -> (j < ncols M)%nat -> 0 < elt M i j) ->
  exists res,
    normalize_matrix gaussian_filter eval (only_transform "log2") M = Ok res
    /\ same_array (map_array exp2 res) M.
Proof.
  intro Hpos. exists (map_array log2 M). split.
  - reflexivity.
  - split; [reflexivity |].
    intros i j Hi Hj. simpl in *. apply exp2_log2, Hpos; assumption.
Qed.

(** C4.  With normalize='total' every entry is divided by the sum of all
    entries, so the result sums to 1; when the sum is exactly zero the
    matrix is returned unchanged.  (Entries are real numbers; the claim's
    restriction to square matrices without zero entries is not needed.) *)
Theorem total_normalisation (M : ndarray) :
  exists res,
    normalize_matrix gaussian_filter eval (only_normalize "total") M = Ok res
    /\ (sum M <> 0 ->
        shape res = shape M
        /\ (forall i j, elt res i j = elt M i j / sum M)
        /\ sum res = 1)
    /\ (sum M = 0 -> res = M).
Proof.
  rewrite run_only_normalize by discriminate.
  unfold __normalize_matrix. cbn [String.eqb Ascii.eqb Bool.eqb].
  cbv beta zeta.
  destruct (is_zero (sum M)) eqn:Hz; cbn [negb].
  - apply is_zero_true in Hz. exists M. repeat split; try tauto.
  - apply is_zero_false in Hz.
    exists (map_array (fun x => x / sum M) M).
    split; [reflexivity |]. split; [| tauto].
    intros _. repeat split.
    rewrite sum_map_array_scale. field. exact Hz.
Qed.

(** C5.  For a square matrix M the expected-value matrix of 'expect' is
    the Toeplitz matrix of the diagonal means: its entry (i, j) is
    [diagonal_mean(M)[|i - j|]], the mean of diagonal [|i - j|] of M, and
    normalize='expect' returns M divided by it entry by entry. *)
Theorem expect_divides_by_toeplitz_of_diagonal_means (M : ndarray) :
  nrows M = ncols M ->
  (forall i j, (i < nrows M)%nat -> (j < nrows M)%nat ->
     elt (toeplitz (diagonal_mean M)) i j
       = nth (Z.abs_nat (Z.of_nat i - Z.of_nat j)) (diagonal_mean M) 0
     /\ elt (toeplitz (diagonal_mean M)) i j
       = mean (diagonal M (Z.abs_nat (Z.of_nat i - Z.of_nat j))))
  /\ exists res,
      normalize_matrix gaussian_filter eval (only_normalize "expect") M = Ok res
      /\ shape res = shape M
      /\ forall i j, (i < nrows M)%nat -> (j < ncols M)%nat ->
           elt res i j = elt M i j / elt (toeplitz (diagonal_mean M)) i j.
Proof.
  intro Hsq. split.
  - intros i j Hi Hj. rewrite toeplitz_elt. split; [reflexivity |].
    unfold diagonal_mean. apply nth_map_seq. lia.
  - rewrite run_only_normalize by discriminate.
    unfold __normalize_matrix. cbn [String.eqb Ascii.eqb Bool.eqb].
    apply zip_with_same.
    unfold shape. simpl. rewrite diagonal_mean_length. congruence.
Qed.

(** C8 (as the code has it).  For a square matrix M of which at least one
    diagonal has a positive standard deviation, [diagonal_mean_std] returns
    a std vector without zeros: a std of zero is replaced with the smallest
    positive std among the diagonals and every other std is kept, so every
    entry of the Toeplitz matrix that 'zscore' divides by is non-zero. *)
Theorem zscore_stds_have_no_zero (M : ndarray) :
  nrows M = ncols M ->
  (exists k, (k < nrows M)%nat /\ 0 < std (diagonal M k)) ->
  exists means stds smallest,
    diagonal_mean_std M = Ok (means, stds)
    /\ List.length stds = nrows M
    /\ Forall (fun s => s <> 0) stds
    /\ (exists k, (k < nrows M)%nat /\ smallest = std (diagonal M k))
    /\ 0 < smallest
    /\ (forall k, (k < nrows M)%nat -> 0 < std (diagonal M k) ->
          smallest <= std (diagonal M k))
    /\ (forall k, (k < nrows M)%nat ->
          (std (diagonal M k) = 0 -> nth k stds 0 = smallest)
          /\ (std (diagonal M k) <> 0 -> nth k stds 0 = std (diagonal M k)))
    /\ (forall i j, (i < nrows M)%nat -> (j < nrows M)%nat ->
          elt (toeplitz stds) i j <> 0)
    /\ exists res,
        normalize_matrix gaussian_filter eval (only_normalize "zscore") M = Ok res
        /\ shape res = shape M
        /\ forall i j, (i < nrows M)%nat -> (j < ncols M)%nat ->
             elt res i j
               = (elt M i j - elt (toeplitz means) i j) / elt (toeplitz stds) i j.
Proof.
  intros Hsq [k0 [Hk0 Hpos0]].
  set (raw := diagonal_std M).
  assert (Hraw : forall k, (k < nrows M)%nat -> nth k raw 0 = std (diagonal M k))
    by (intros k Hk; apply nth_map_seq; exact Hk).
  assert (Hlen : List.length raw = nrows M)
    by (unfold raw, diagonal_std; rewrite length_map, length_seq; reflexivity).
  assert (Hin : forall s, In s raw <->
                          exists k, (k < nrows M)%nat /\ s = std (diagonal M k)).
  { intro s. unfold raw, diagonal_std. rewrite in_map_iff. split.
    - intros [k [<- Hk]]. apply in_seq in Hk. exists k. split; [lia | reflexivity].
    - intros [k [Hk ->]]. exists k. split; [reflexivity | apply in_seq; lia]. }
  destruct (min_list_spec (filter is_positive raw)) as [m [Hmin [Hm_in Hm_le]]].
  { intro Hnil.
    assert (Hk : In (std (diagonal M k0)) (filter is_positive raw)).
    { apply filter_In. split; [apply Hin; eauto | apply is_positive_true, Hpos0]. }
    rewrite Hnil in Hk. exact Hk. }
  apply filter_In in Hm_in. destruct Hm_in as [Hm_raw Hm_pos].
  apply is_positive_true in Hm_pos.
  set (stds := map (fun s => if is_zero s then m else s) raw).
  assert (Hnth : forall k, (k < nrows M)%nat ->
            nth k stds 0 = if is_zero (std (diagonal M k)) then m
                           else std (diagonal M k)).
  { intros k Hk. unfold stds.
    rewrite nth_map_in by (rewrite Hlen; exact Hk).
    rewrite Hraw by exact Hk. reflexivity. }
  assert (Hnz : forall k, (k < nrows M)%nat -> nth k stds 0 <> 0).
  { intros k Hk. rewrite Hnth by exact Hk.
    destruct (is_zero (std (diagonal M k))) eqn:Hz.
    - lra.
    - apply is_zero_false, Hz. }
  assert (Hslen : List.length stds = nrows M)
    by (unfold stds; rewrite length_map; exact Hlen).
  assert (Hdms : diagonal_mean_std M = Ok (diagonal_mean M, stds)).
  { unfold diagonal_mean_std. fold raw. rewrite Hmin. reflexivity. }
  assert (Htoe : forall i j, (i < nrows M)%nat -> (j < nrows M)%nat ->
                             elt (toeplitz stds) i j <> 0).
  { intros i j Hi Hj. rewrite toeplitz_elt. apply Hnz. lia. }
  exists (diagonal_mean M), stds, m.
  split; [exact Hdms |]. split; [exact Hslen |].
  split.
  { apply Forall_forall. intros s Hs.
    apply (In_nth _ _ 0) in Hs. destruct Hs as [k [Hk <-]].
    apply Hnz. lia. }
  split; [apply Hin, Hm_raw |]. split; [exact Hm_pos |].
  split.
  { intros k Hk Hp. apply Hm_le, filter_In.
    split; [apply Hin; eauto | apply is_positive_true, Hp]. }
  split.
  { intros k Hk. rewrite Hnth by exact Hk. split; intro Hz.
    - apply is_zero_true in Hz. rewrite Hz. reflexivity.
    - apply is_zero_false in Hz. rewrite Hz. reflexivity. }
  split; [exact Htoe |].
  rewrite run_only_normalize by discriminate.
  unfold __normalize_matrix. cbn [String.eqb Ascii.eqb Bool.eqb].
  rewrite Hdms. cbn [bind].
  destruct (zip_with_same Rminus M (toeplitz (diagonal_mean M)))
    as [centred [Hc [Hcs Hce]]].
  { unfold shape. simpl. rewrite diagonal_mean_length. congruence. }
  unfold subtract. rewrite Hc. cbn [bind].
  destruct (zip_with_same Rdiv centred (toeplitz stds)) as [res [Hr [Hrs Hre]]].
  { rewrite Hcs. unfold shape. simpl. rewrite Hslen. congruence. }
  exists res. split; [exact Hr |]. split; [congruence |].
  intros i j Hi Hj.
  injection Hcs as Hcr Hcc.
  rewrite Hre, Hce by congruence. reflexivity.
Qed.

(** C1 (as the code has it).  No relation between the two numbers of
    'hiccups:P:W' is checked.  For 2 <= P <= 9 and 1 <= W <= P, so with
    P >= W, normalize applied to a square matrix raises nothing: it returns
    a matrix of the shape of its input. *)
Theorem hiccups_widths_are_not_validated (P W : Z) (M : ndarray) :
  (2 <= P <= 9)%Z -> (1 <= W <= P)%Z -> nrows M = ncols M ->
  exists res,
    normalize_matrix gaussian_filter eval (only_normalize (hiccups_mode P W)) M
      = Ok res
    /\ shape res = shape M.
Proof.
  intros HP HW Hsq.
  destruct (hiccups_mode_digits P W) as [Hno [H1 [H2 [H3 [Hre Hpw]]]]];
    [lia | lia |].
  rewrite run_only_normalize_b by exact Hno.
  apply (hiccups_branch_shape (hiccups_mode P W) W P M); try assumption. lia.
Qed.

End Stages.

(** ** The pipeline at particular inputs *)

(** C1, counterexample.  'hiccups:3:1' has P = 3 >= W = 1, and normalize
    applied to [[1, 2], [3, 4]] raises nothing. *)
Lemma hiccups_3_1_is_accepted :
  hiccups_mode 3 1 = "hiccups:3:1"
  /\ raises (normalize_matrix unused_gaussian_filter unused_eval
               (only_normalize "hiccups:3:1") M2) = false.
Proof.
  split; vm_compute; reflexivity.
Qed.

(** C2, the code at 'hiccups:1:3' and at 'hiccups:10:20'.  After
    [p, w = int(w), int(p)] the first number, 1, is [w] and the second, 3,
    is [p]: the kernel is 3 x 3, not 7 x 7.  A first number of two digits
    does not match "hiccups:.:." and the matrix is returned as it is. *)
Theorem hiccups_1_3_parameters :
  hiccups_mode 1 3 = "hiccups:1:3"
  /\ re_match_hiccups "hiccups:1:3" = true
  /\ hiccups_params "hiccups:1:3" = Ok (3%Z, 1%Z)
  /\ (kernel <- __donut_kernel 3 1 ;; Ok (shape kernel)) = Ok (3%nat, 3%nat)
  /\ hiccups_mode 10 20 = "hiccups:10:20"
  /\ re_match_hiccups "hiccups:10:20" = false
  /\ normalize_matrix unused_gaussian_filter unused_eval
       (only_normalize "hiccups:10:20") M2 = Ok M2.
Proof.
  repeat split; vm_compute; reflexivity.
Qed.

(** C3, the code at 'hiccups:1:3' and the matrix [[1, 2], [3, 4]].  With
    [w = 1] the padded array is 2 x 2, the centre block [1:3, 1:3] of it
    is 1 x 1, the 2 x 2 matrix does not fit and normalize raises
    [ValueError].  With [w = 2] the padded array is 4 x 4 and the matrix
    is written with two rows and columns of zeros before it and none
    after it. *)
Theorem hiccups_1_3_fails_on_2x2 :
  (padded <- zeros (2 + 2 * (1 - 1)) (2 + 2 * (1 - 1)) ;; Ok (shape padded))
    = Ok (2%nat, 2%nat)
  /\ shape (getblock (array [[0; 0]; [0; 0]])
                     (fst (idx_center 1 M2)) (snd (idx_center 1 M2)))
     = (1%nat, 1%nat)
  /\ normalize_matrix unused_gaussian_filter unused_eval
       (only_normalize "hiccups:1:3") M2
     = Raise (ValueError "could not broadcast input array")
  /\ (m_ext <- zeros (2 + 2 * (2 - 1)) (2 + 2 * (2 - 1)) ;;
      m_ext <- setblock m_ext (fst (idx_center 2 M2)) (snd (idx_center 2 M2)) M2 ;;
      Ok (tolist m_ext))
     = Ok [[0; 0; 0; 0]; [0; 0; 0; 0]; [0; 0; 1; 2]; [0; 0; 3; 4]].
Proof.
  repeat split; vm_compute; reflexivity.
Qed.

(** C8, counterexample.  The one diagonal of the 1 x 1 matrix [[5]] has
    standard deviation zero, no std is positive, and [diagonal_mean_std]
    raises [ValueError] from the minimum of an empty array: no std vector
    is returned, and 'zscore' raises with it. *)
Lemma single_entry_has_no_positive_std :
  diagonal_std (array [[5]]) = [0]
  /\ diagonal_mean_std (array [[5]])
     = Raise (ValueError "zero-size array to reduction operation minimum which has no identity")
  /\ raises (normalize_matrix unused_gaussian_filter unused_eval
               (only_normalize "zscore") (array [[5]])) = true.
Proof.
  assert (Hstd : diagonal_std (array [[5]]) = [0]).
  { unfold diagonal_std, diagonal, std, mean, array. simpl.
    f_equal.
    match goal with |- sqrt ?x = 0 => replace x with 0 by field end.
    apply sqrt_0. }
  assert (Hraise : diagonal_mean_std (array [[5]])
     = Raise (ValueError "zero-size array to reduction operation minimum which has no identity")).
  { unfold diagonal_mean_std. rewrite Hstd. simpl.
    destruct (is_positive 0) eqn:Hp; [| reflexivity].
    apply is_positive_true in Hp. lra. }
  split; [exact Hstd |]. split; [exact Hraise |].
  rewrite run_only_normalize by discriminate.
  unfold __normalize_matrix. cbn [String.eqb Ascii.eqb Bool.eqb].
  rewrite Hraise. reflexivity.
Qed.

(** C9, counterexample.  'sqrt' is no transform mode and 'median' is no
    normalize mode; with either, normalize returns [[1, 2], [3, 4]] as it
    is and raises nothing. *)
Lemma unknown_modes_do_not_raise :
  normalize_matrix unused_gaussian_filter unused_eval (only_transform "sqrt") M2
    = Ok M2
  /\ normalize_matrix unused_gaussian_filter unused_eval (only_normalize "median") M2
    = Ok M2.
Proof.
  split; reflexivity.
Qed.

(** ** Instances *)

Lemma M2_positive (i j : nat) :
  (i < nrows M2)%nat -> (j < ncols M2)%nat -> 0 < elt M2 i j.
Proof.
  unfold M2, array. simpl. intros Hi Hj.
  destruct i as [| [| i]]; [| | lia];
    (destruct j as [| [| j]]; [| | lia]); simpl; lra.
Defined.

Lemma M2_first_diagonal_std : 0 < std (diagonal M2 0).
Proof.
  unfold std, diagonal, mean, M2, array. simpl.
  apply sqrt_lt_R0. field_simplify. lra.
Defined.

Lemma hiccups_widths_are_not_validated_witness :
  exists res,
    normalize_matrix unused_gaussian_filter unused_eval
      (only_normalize (hiccups_mode 3 1)) M2 = Ok res
    /\ shape res = shape M2.
Proof.
  apply (hiccups_widths_are_not_validated unused_gaussian_filter unused_eval 3 1 M2);
    [lia | lia | reflexivity].
Defined.

Lemma unknown_modes_are_ignored_witness :
  normalize_matrix unused_gaussian_filter unused_eval
      (Properties (Some "sqrt") None None None) M2
    = normalize_matrix unused_gaussian_filter unused_eval
        (Properties (Some "no") None None None) M2
  /\ normalize_matrix unused_gaussian_filter unused_eval
       (Properties None (Some "median") None None) M2
    = normalize_matrix unused_gaussian_filter unused_eval
        (Properties None (Some "no") None None) M2
  /\ normalize_matrix unused_gaussian_filter unused_eval
       (Properties (Some "sqrt") (Some "median") (Some (Str "no")) (Some (Str "no"))) M2
    = Ok M2.
Proof.
  apply (unknown_modes_are_ignored unused_gaussian_filter unused_eval
           "sqrt" "median" None None None None M2);
    try discriminate; reflexivity.
Defined.

Lemma log2_round_trip_witness :
  exists res,
    normalize_matrix unused_gaussian_filter unused_eval (only_transform "log2") M2
      = Ok res
    /\ same_array (map_array exp2 res) M2.
Proof.
  apply (log2_round_trip unused_gaussian_filter unused_eval M2).
  exact M2_positive.
Defined.

Lemma expect_divides_by_toeplitz_of_diagonal_means_witness :
  (forall i j, (i < nrows M2)%nat -> (j < nrows M2)%nat ->
     elt (toeplitz (diagonal_mean M2)) i j
       = nth (Z.abs_nat (Z.of_nat i - Z.of_nat j)) (diagonal_mean M2) 0
     /\ elt (toeplitz (diagonal_mean M2)) i j
       = mean (diagonal M2 (Z.abs_nat (Z.of_nat i - Z.of_nat j))))
  /\ exists res,
      normalize_matrix unused_gaussian_filter unused_eval
        (only_normalize "expect") M2 = Ok res
      /\ shape res = shape M2
      /\ forall i j, (i < nrows M2)%nat -> (j < ncols M2)%nat ->
           elt res i j = elt M2 i j / elt (toeplitz (diagonal_mean M2)) i j.
Proof.
  apply (expect_divides_by_toeplitz_of_diagonal_means
           unused_gaussian_filter unused_eval M2).
  reflexivity.
Defined.

Lemma zscore_stds_have_no_zero_witness :
  exists means stds smallest,
    diagonal_mean_std M2 = Ok (means, stds)
    /\ List.length stds = nrows M2
    /\ Forall (fun s => s <> 0) stds
    /\ (exists k, (k < nrows M2)%nat /\ smallest = std (diagonal M2 k))
    /\ 0 < smallest
    /\ (forall k, (k < nrows M2)%nat -> 0 < std (diagonal M2 k) ->
          smallest <= std (diagonal M2 k))
    /\ (forall k, (k < nrows M2)%nat ->
          (std (diagonal M2 k) = 0 -> nth k stds 0 = smallest)
          /\ (std (diagonal M2 k) <> 0 -> nth k stds 0 = std (diagonal M2 k)))
    /\ (forall i j, (i < nrows M2)%nat -> (j < nrows M2)%nat ->
          elt (toeplitz stds) i j <> 0)
    /\ exists res,
        normalize_matrix unused_gaussian_filter unused_eval
          (only_normalize "zscore") M2 = Ok res
        /\ shape res = shape M2
        /\ forall i j, (i < nrows M2)%nat -> (j < ncols M2)%nat ->
             elt res i j
               = (elt M2 i j - elt (toeplitz means) i j) / elt (toeplitz stds) i j.
Proof.
  apply (zscore_stds_have_no_zero unused_gaussian_filter unused_eval M2).
  - reflexivity.
  - exists 0%nat. split; [simpl; lia | exact M2_first_diagonal_std].
Defined.

End FetchHiCProperties.

(* ================================================================== *)
(** * Further properties of the normalisation pipeline *)
(* ================================================================== *)

Module NormalisationLaws.

Import Py Np FetchHiC FetchHiCProperties.
Local Open Scope R_scope.
Local Open Scope string_scope.

(** ** The padding of [apply_donut] *)

Lemma elt0_inside (a : ndarray) (i j : nat) :
  (i < nrows a)%nat -> (j < ncols a)%nat ->
  elt0 a (Z.of_nat i) (Z.of_nat j) = elt a i j.
Proof.
  intros Hi Hj. unfold elt0.
  destruct (Z.leb_spec 0 (Z.of_nat i)); [| lia].
  destruct (Z.ltb_spec (Z.of_nat i) (Z.of_nat (nrows a))); [| lia].
  destruct (Z.leb_spec 0 (Z.of_nat j)); [| lia].
  destruct (Z.ltb_spec (Z.of_nat j) (Z.of_nat (ncols a))); [| lia].
  cbn [andb]. rewrite !Nat2Z.id. reflexivity.
Qed.

Lemma elt0_outside (a : ndarray) (x y : Z) :
  ~ (0 <= x < Z.of_nat (nrows a) /\ 0 <= y < Z.of_nat (ncols a))%Z ->
  elt0 a x y = 0.
Proof.
  intro Hout. unfold elt0.
  destruct (Z.leb_spec 0 x); cbn [andb]; [| reflexivity].
  destruct (Z.ltb_spec x (Z.of_nat (nrows a))); cbn [andb]; [| reflexivity].
  destruct (Z.leb_spec 0 y); cbn [andb]; [| reflexivity].
  destruct (Z.ltb_spec y (Z.of_nat (ncols a))); cbn [andb]; [| reflexivity].
  lia.
Qed.

Ltac split_bound_test :=
  match goal with
  | |- context [Nat.ltb ?x ?y] => destruct (Nat.ltb_spec x y)
  | |- context [Nat.leb ?x ?y] => destruct (Nat.leb_spec x y)
  | |- context [(?x <? ?y)%Z] => destruct (Z.ltb_spec x y)
  | |- context [(?x <=? ?y)%Z] => destruct (Z.leb_spec x y)
  end.

Ltac split_bounds := repeat split_bound_test.

(** The padded array of [apply_donut], read at a position shifted by [w],
    is the zero extension of [m]. *)
Lemma padded_elt0 (w : Z) (m : ndarray) (x y : Z) :
  (2 <= w)%Z -> nrows m = ncols m ->
  let side := Z.to_nat (Z.of_nat (nrows m) + 2 * (w - 1)) in
  let r0 := Z.to_nat w in
  let hi := Z.to_nat (w + Z.of_nat (nrows m)) in
  elt0 (Array side side
          (fun i j =>
             if within (r0, hi) i && within (r0, hi) j
             then elt m (bidx (nrows m) (i - r0)) (bidx (ncols m) (j - r0))
             else 0))
       (x + w) (y + w)
  = elt0 m x y.
Proof.
  intros Hw Hsq side r0 hi.
  destruct (Z_lt_le_dec x 0) as [Hx | Hx];
    [| destruct (Z_lt_le_dec x (Z.of_nat (nrows m))) as [Hx' | Hx']];
    try destruct (Z_lt_le_dec y 0) as [Hy | Hy];
    try destruct (Z_lt_le_dec y (Z.of_nat (ncols m))) as [Hy' | Hy'].
  all: try (rewrite (elt0_outside m x y) by lia).
  all: try (unfold elt0; cbn [nrows ncols elt]; unfold within; cbn [fst snd];
            split_bounds; cbn [andb]; try reflexivity; subst side r0 hi; lia).
  (* inside the matrix *)
  replace x with (Z.of_nat (Z.to_nat x)) at 2 by lia.
  replace y with (Z.of_nat (Z.to_nat y)) at 2 by lia.
  rewrite elt0_inside by lia.
  unfold elt0; cbn [nrows ncols elt]; unfold within; cbn [fst snd].
  split_bounds; cbn [andb]; try (subst side r0 hi; lia).
  rewrite !bidx_lt by (subst r0; lia).
  f_equal; subst r0; lia.
Qed.

Lemma center_slice_hi (w : Z) (n : nat) :
  (2 <= w)%Z ->
  slice_hi (Slice (Some w) (Some (w + Z.of_nat n)%Z))
           (Z.to_nat (Z.of_nat n + 2 * (w - 1)))
  = Z.to_nat (w + Z.of_nat n).
Proof.
  intro Hw. unfold slice_hi, clip_bound. cbn [stop].
  destruct (Z.ltb_spec (w + Z.of_nat n) 0); lia.
Qed.

Lemma apply_donut_convolves (w : Z) (kernel m : ndarray) :
  (2 <= w)%Z -> nrows m = ncols m ->
  exists r, apply_donut w kernel m = Ok r
            /\ same_array r (convolve2d_same m kernel).
Proof.
  intros Hw Hsq. unfold apply_donut, zeros, idx_center.
  rewrite full_ok by lia. cbn [bind].
  unfold setblock. cbn [nrows ncols].
  rewrite <- Hsq.
  destruct (center_slice w (nrows m) Hw) as [Hlo Hlen].
  pose proof (center_slice_hi w (nrows m) Hw) as Hhi.
  cbv zeta in Hlo, Hlen. rewrite Hlen.
  unfold stretches. rewrite Nat.eqb_refl. cbn [orb andb bind].
  eexists. split; [reflexivity |].
  split.
  - unfold shape, getblock. cbn [nrows ncols convolve2d_same].
    rewrite Hlen, <- Hsq. reflexivity.
  - intros i j Hi Hj.
    unfold getblock in *. cbn [nrows ncols elt convolve2d_same] in *.
    rewrite Hlo, Hhi.
    f_equal. apply map_ext. intro u.
    f_equal. apply map_ext. intro v.
    f_equal.
    pose proof (padded_elt0 w m
                  (Z.of_nat i + Z.of_nat ((nrows kernel - 1) / 2) - Z.of_nat u)
                  (Z.of_nat j + Z.of_nat ((ncols kernel - 1) / 2) - Z.of_nat v)
                  Hw Hsq) as Hpad.
    cbv zeta in Hpad. rewrite <- Hsq in Hpad. rewrite <- Hpad.
    f_equal; lia.
Qed.

(** X1.  For [w >= 2] and a square matrix the explicit zero padding of
    [apply_donut] changes nothing: the result is the 'same'-mode
    convolution of the matrix itself with the kernel, whatever the kernel
    is. *)
Theorem apply_donut_is_plain_convolution (w : Z) (kernel m : ndarray) :
  (2 <= w)%Z -> nrows m = ncols m ->
  exists r, apply_donut w kernel m = Ok r
            /\ same_array r (convolve2d_same m kernel).
Proof.
  exact (apply_donut_convolves w kernel m).
Qed.

Lemma apply_donut_is_plain_convolution_witness :
  exists r, apply_donut 3 (array [[1]]) M2 = Ok r
            /\ same_array r (convolve2d_same M2 (array [[1]])).
Proof.
  apply (apply_donut_is_plain_convolution 3 (array [[1]]) M2);
    [lia | reflexivity].
Defined.

(** ** The donut kernel *)

Lemma within_Z (lo hi : Z) (i : nat) :
  (0 <= lo)%Z -> (0 <= hi)%Z ->
  within (Z.to_nat lo, Z.to_nat hi) i
  = ((lo <=? Z.of_nat i)%Z && (Z.of_nat i <? hi)%Z)%bool.
Proof.
  intros Hlo Hhi. unfold within. cbn [fst snd].
  destruct (Nat.leb_spec (Z.to_nat lo) i), (Nat.ltb_spec i (Z.to_nat hi)),
    (Z.leb_spec lo (Z.of_nat i)), (Z.ltb_spec (Z.of_nat i) hi);
    try reflexivity; lia.
Qed.

Lemma within_at (w : Z) (i : nat) :
  (0 <= w)%Z ->
  within (Z.to_nat w, S (Z.to_nat w)) i = (Z.of_nat i =? w)%Z.
Proof.
  intro Hw. unfold within. cbn [fst snd].
  destruct (Nat.leb_spec (Z.to_nat w) i), (Nat.ltb_spec i (S (Z.to_nat w))),
    (Z.eqb_spec (Z.of_nat i) w); try reflexivity; lia.
Qed.

Lemma clip_inside (len : nat) (b : Z) :
  (0 <= b <= Z.of_nat len)%Z -> clip_bound len b = Z.to_nat b.
Proof.
  intro Hb. unfold clip_bound. destruct (Z.ltb_spec b 0); lia.
Qed.

Lemma within_clip (len : nat) (a b : Z) (i : nat) :
  (i < len)%nat -> (0 <= a)%Z -> (0 <= b)%Z ->
  within (clip_bound len a, clip_bound len b) i
  = ((a <=? Z.of_nat i)%Z && (Z.of_nat i <? b)%Z)%bool.
Proof.
  intros Hi Ha Hb. unfold within, clip_bound. cbn [fst snd].
  destruct (Z.ltb_spec a 0); [lia |]. destruct (Z.ltb_spec b 0); [lia |].
  destruct (Nat.leb_spec (Z.to_nat (Z.min a (Z.of_nat len))) i),
    (Nat.ltb_spec i (Z.to_nat (Z.min b (Z.of_nat len)))),
    (Z.leb_spec a (Z.of_nat i)), (Z.ltb_spec (Z.of_nat i) b);
    try reflexivity; lia.
Qed.

Ltac split_comparisons :=
  repeat (first
            [ match goal with
              | |- context [Z.eqb ?x ?y] => destruct (Z.eqb_spec x y)
              end
            | match goal with
              | |- context [Z.ltb ?x ?y] => destruct (Z.ltb_spec x y)
              end
            | match goal with
              | |- context [Z.leb ?x ?y] => destruct (Z.leb_spec x y)
              end ];
          try (exfalso; lia)).

Lemma donut_kernel_elt (p w : Z) :
  (1 <= p <= w)%Z ->
  exists k,
    __donut_kernel p w = Ok k
    /\ shape k = (Z.to_nat (2 * w + 1), Z.to_nat (2 * w + 1))
    /\ forall i j, (i < nrows k)%nat -> (j < ncols k)%nat ->
         elt k i j = 1 - indicator (in_inner_square p w i j)
                       - indicator (in_cross_arms p w i j).
Proof.
  intro Hpw. unfold __donut_kernel, ones, zeros.
  rewrite !full_ok by lia. cbn [bind].
  unfold setitem, index_bounds, from_to, up_to. cbn [nrows ncols bind].
  repeat (rewrite index_pos_ok by lia; cbn [bind nrows ncols]).
  unfold subtract, zip_with, bshape. cbn [nrows ncols].
  repeat (progress (rewrite ?Nat.eqb_refl; cbn [bind nrows ncols])).
  eexists. split; [reflexivity |]. split; [reflexivity |].
  cbn [nrows ncols elt]. intros i j Hi Hj.
  rewrite !(bidx_lt _ i) by exact Hi. rewrite !(bidx_lt _ j) by exact Hj.
  unfold slice_lo, slice_hi. cbn [start stop].
  rewrite !within_at by lia.
  rewrite !(within_clip _ _ _ i) by (try exact Hi; lia).
  rewrite !(within_clip _ _ _ j) by (try exact Hj; lia).
  rewrite !clip_inside by lia.
  change 0%nat with (Z.to_nat 0).
  rewrite !within_Z by lia.
  unfold indicator, in_inner_square, in_cross_arms.
  split_comparisons; cbn [andb orb]; lra.
Qed.

(** X2.  For 1 <= p <= w the kernel is a square of side 2w + 1 whose entry
    (i, j) is 1, minus 1 inside the central square of half-width p, minus 1
    on the arms of the cross: row w and column w at indices below w - p or
    from w + 2p - 1 on. *)
Theorem donut_kernel_entries (p w : Z) :
  (1 <= p <= w)%Z ->
  exists k,
    __donut_kernel p w = Ok k
    /\ shape k = (Z.to_nat (2 * w + 1), Z.to_nat (2 * w + 1))
    /\ forall i j, (i < nrows k)%nat -> (j < ncols k)%nat ->
         elt k i j = 1 - indicator (in_inner_square p w i j)
                       - indicator (in_cross_arms p w i j).
Proof.
  exact (donut_kernel_elt p w).
Qed.

Lemma donut_kernel_entries_witness :
  exists k,
    __donut_kernel 2 4 = Ok k
    /\ shape k = (Z.to_nat (2 * 4 + 1), Z.to_nat (2 * 4 + 1))
    /\ forall i j, (i < nrows k)%nat -> (j < ncols k)%nat ->
         elt k i j = 1 - indicator (in_inner_square 2 4 i j)
                       - indicator (in_cross_arms 2 4 i j).
Proof.
  apply (donut_kernel_entries 2 4). lia.
Defined.

(** X3.  For 1 <= p <= w the kernel equals its transpose. *)
Theorem donut_kernel_is_symmetric (p w : Z) :
  (1 <= p <= w)%Z ->
  exists k,
    __donut_kernel p w = Ok k
    /\ forall i j, (i < nrows k)%nat -> (j < ncols k)%nat ->
                   elt k i j = elt k j i.
Proof.
  intro Hpw. destruct (donut_kernel_elt p w Hpw) as [k [Hk [Hs He]]].
  exists k. split; [exact Hk |]. intros i j Hi Hj.
  pose proof (f_equal fst Hs) as Hr. pose proof (f_equal snd Hs) as Hc.
  cbn [fst snd shape] in Hr, Hc.
  rewrite (He i j Hi Hj), (He j i) by lia.
  unfold indicator, in_inner_square, in_cross_arms.
  split_comparisons; cbn [andb orb]; lra.
Qed.

Lemma donut_kernel_is_symmetric_witness :
  exists k,
    __donut_kernel 2 4 = Ok k
    /\ forall i j, (i < nrows k)%nat -> (j < ncols k)%nat ->
                   elt k i j = elt k j i.
Proof.
  apply (donut_kernel_is_symmetric 2 4). lia.
Defined.

(** X4.  With p = 1 the arms of the cross that start at w + 2p - 1 = w + 1
    overlap the central square: the entries right of and below the centre
    are -1, while the entries left of and above it are 0. *)
Theorem donut_kernel_p1_has_negative_entries (w : Z) :
  (1 <= w)%Z ->
  exists k,
    __donut_kernel 1 w = Ok k
    /\ elt k (Z.to_nat w) (Z.to_nat (w + 1)) = -1
    /\ elt k (Z.to_nat (w + 1)) (Z.to_nat w) = -1
    /\ elt k (Z.to_nat w) (Z.to_nat (w - 1)) = 0
    /\ elt k (Z.to_nat (w - 1)) (Z.to_nat w) = 0.
Proof.
  intro Hw. destruct (donut_kernel_elt 1 w) as [k [Hk [Hs He]]]; [lia |].
  exists k. split; [exact Hk |].
  pose proof (f_equal fst Hs) as Hr. pose proof (f_equal snd Hs) as Hc.
  cbn [fst snd shape] in Hr, Hc.
  repeat split; rewrite He by lia;
    unfold indicator, in_inner_square, in_cross_arms;
    rewrite !Z2Nat.id by lia;
    split_comparisons; cbn [andb orb]; lra.
Qed.

Lemma donut_kernel_p1_has_negative_entries_witness :
  exists k,
    __donut_kernel 1 3 = Ok k
    /\ elt k (Z.to_nat 3) (Z.to_nat (3 + 1)) = -1
    /\ elt k (Z.to_nat (3 + 1)) (Z.to_nat 3) = -1
    /\ elt k (Z.to_nat 3) (Z.to_nat (3 - 1)) = 0
    /\ elt k (Z.to_nat (3 - 1)) (Z.to_nat 3) = 0.
Proof.
  apply (donut_kernel_p1_has_negative_entries 3). lia.
Defined.

(** ** Matrices that are constant along their diagonals *)

Lemma sum_list_const (x : R) (l : list nat) :
  sum_list (map (fun _ => x) l) = INR (List.length l) * x.
Proof.
  induction l as [| a l IH].
  - simpl. ring.
  - cbn [map sum_list fold_right List.length].
    fold (sum_list (map (fun _ => x) l)).
    rewrite IH, S_INR. ring.
Qed.

Lemma mean_const (x : R) (l : list nat) :
  l <> [] -> mean (map (fun _ => x) l) = x.
Proof.
  intro Hl. unfold mean. rewrite sum_list_const, length_map.
  field. apply not_0_INR. destruct l; [congruence | discriminate].
Qed.

Lemma diagonal_toeplitz (c : list R) (k : nat) :
  (k < List.length c)%nat ->
  diagonal (toeplitz c) k
  = map (fun _ => nth k c 0) (seq 0 (List.length c - k)).
Proof.
  intro Hk. unfold diagonal. cbn [nrows ncols toeplitz].
  replace (Nat.min (List.length c) (List.length c - k))
    with (List.length c - k)%nat by lia.
  apply map_ext. intro i. cbn [elt toeplitz].
  destruct (Nat.leb_spec (i + k) i); f_equal; lia.
Qed.

Lemma diagonal_mean_of_toeplitz (c : list R) :
  diagonal_mean (toeplitz c) = c.
Proof.
  apply (nth_ext _ _ 0 0).
  - apply diagonal_mean_length.
  - intros k Hk. rewrite diagonal_mean_length in Hk. cbn [nrows toeplitz] in Hk.
    unfold diagonal_mean. rewrite nth_map_seq by exact Hk.
    rewrite diagonal_toeplitz by exact Hk.
    apply mean_const.
    destruct (List.length c - k)%nat eqn:E; [lia | discriminate].
Qed.

(** X5.  [diagonal_mean] undoes [toeplitz]: the diagonal means of the
    Toeplitz matrix of a vector are that vector. *)
Theorem diagonal_mean_toeplitz (c : list R) :
  diagonal_mean (toeplitz c) = c.
Proof.
  exact (diagonal_mean_of_toeplitz c).
Qed.

(** X6.  normalize='expect' maps a matrix that is constant along each
    diagonal, with no zero entry, to the matrix of ones. *)
Theorem expect_of_toeplitz_is_ones (c : list R) :
  Forall (fun x => x <> 0) c ->
  exists res,
    __normalize_matrix "expect" (toeplitz c) = Ok res
    /\ shape res = (List.length c, List.length c)
    /\ forall i j, (i < List.length c)%nat -> (j < List.length c)%nat ->
                   elt res i j = 1.
Proof.
  intro Hnz. unfold __normalize_matrix. cbn [String.eqb Ascii.eqb Bool.eqb].
  rewrite diagonal_mean_of_toeplitz.
  destruct (zip_with_same Rdiv (toeplitz c) (toeplitz c) eq_refl)
    as [res [Hres [Hshape Helt]]].
  exists res. split; [exact Hres |]. split; [exact Hshape |].
  intros i j Hi Hj. rewrite Helt by assumption.
  rewrite toeplitz_elt. unfold Rdiv. apply Rinv_r.
  rewrite Forall_forall in Hnz. apply Hnz, nth_In. lia.
Qed.

Lemma expect_of_toeplitz_is_ones_witness :
  exists res,
    __normalize_matrix "expect" (toeplitz [2; 1]) = Ok res
    /\ shape res = (List.length [2; 1], List.length [2; 1])
    /\ forall i j, (i < List.length [2; 1])%nat -> (j < List.length [2; 1])%nat ->
                   elt res i j = 1.
Proof.
  apply (expect_of_toeplitz_is_ones [2; 1]).
  repeat constructor; lra.
Defined.

(** ** 'total' *)

(** X7.  normalize='total' is idempotent: applied to its own result it
    returns the same entries. *)
Theorem total_is_idempotent (M : ndarray) :
  exists once twice,
    __normalize_matrix "total" M = Ok once
    /\ __normalize_matrix "total" once = Ok twice
    /\ same_array twice once.
Proof.
  unfold __normalize_matrix. cbn [String.eqb Ascii.eqb Bool.eqb]. cbv zeta.
  destruct (is_zero (sum M)) eqn:Hz; cbn [negb].
  - exists M, M. rewrite Hz. cbn [negb].
    repeat split; reflexivity.
  - apply is_zero_false in Hz.
    set (once := map_array (fun x => x / sum M) M).
    assert (Hone : sum once = 1).
    { unfold once. rewrite sum_map_array_scale. field. exact Hz. }
    exists once. rewrite Hone.
    destruct (is_zero 1) eqn:H1; [apply is_zero_true in H1; lra |].
    cbn [negb]. eexists. split; [reflexivity |]. split; [reflexivity |].
    split; [reflexivity |]. intros i j _ _. cbn.
    unfold Rdiv. rewrite Rinv_1. ring.
Qed.

(** ** [fill_zero_nan] *)











(** ** 'hiccups' *)

Lemma apply_donut_w1 (kernel m : ndarray) :
  nrows m = ncols m -> (2 <= nrows m)%nat ->
  apply_donut 1 kernel m = Raise (ValueError "could not broadcast input array").
Proof.
  intros Hsq Hn. unfold apply_donut, zeros, idx_center.
  rewrite full_ok by lia. cbn [bind].
  unfold setblock. cbn [nrows ncols].
  assert (Hlen : slice_len (Slice (Some 1%Z) (Some (1 + Z.of_nat (nrows m))%Z))
                   (Z.to_nat (Z.of_nat (nrows m) + 2 * (1 - 1)))
                 = (nrows m - 1)%nat).
  { unfold slice_len, slice_hi, slice_lo, clip_bound. cbn [start stop].
    destruct (Z.ltb_spec 1 0); [lia |].
    destruct (Z.ltb_spec (1 + Z.of_nat (nrows m)) 0); lia. }
  rewrite Hlen. unfold stretches.
  destruct (Nat.eqb_spec (nrows m) (nrows m - 1)); [lia |].
  destruct (Nat.eqb_spec (nrows m) 1); [lia |].
  reflexivity.
Qed.

(** X11.  When the first number of 'hiccups:1:W' is 1 (W one digit), the
    padded array has the size of the matrix itself, the centre block is
    one row and one column short, and normalize raises [ValueError] for
    every square matrix with two or more rows. *)
Theorem hiccups_first_number_one_raises (W : Z) (M : ndarray) :
  (1 <= W <= 9)%Z -> nrows M = ncols M -> (2 <= nrows M)%nat ->
  __normalize_matrix (hiccups_mode 1 W) M
  = Raise (ValueError "could not broadcast input array").
Proof.
  intros HW Hsq Hn.
  destruct (hiccups_mode_digits 1 W) as [_ [H1 [H2 [H3 [Hre Hpw]]]]];
    [lia | lia |].
  unfold __normalize_matrix. rewrite H1, H2, H3, Hre, Hpw. cbn [bind].
  destruct (donut_kernel_shape W 1) as [k [-> _]]; [lia |]. cbn [bind].
  rewrite apply_donut_w1 by assumption. reflexivity.
Qed.

Lemma hiccups_first_number_one_raises_witness :
  __normalize_matrix (hiccups_mode 1 2) M2
  = Raise (ValueError "could not broadcast input array").
Proof.
  apply (hiccups_first_number_one_raises 2 M2);
    [lia | reflexivity | simpl; lia].
Defined.

(** X12.  When the mode matches "hiccups:.:.", its parameters are read as
    [(p, w)] with [w >= 2] and the matrix is square, the result is
    M / ((conv(M) / conv(E)) * E) entry by entry, where E is the Toeplitz
    matrix of the diagonal means of M and conv is the plain 'same'-mode
    convolution with the kernel [__donut_kernel(p, w)]. *)
Theorem hiccups_result_formula (mode : string) (p w : Z) (M : ndarray) :
  String.eqb mode "total" = false ->
  String.eqb mode "expect" = false ->
  String.eqb mode "zscore" = false ->
  re_match_hiccups mode = true ->
  hiccups_params mode = Ok (p, w) ->
  (2 <= w)%Z -> nrows M = ncols M ->
  exists kernel res,
    __donut_kernel p w = Ok kernel
    /\ __normalize_matrix mode M = Ok res
    /\ shape res = shape M
    /\ forall i j, (i < nrows M)%nat -> (j < ncols M)%nat ->
         elt res i j
         = elt M i j
           / (elt (convolve2d_same M kernel) i j
              / elt (convolve2d_same (toeplitz (diagonal_mean M)) kernel) i j
              * elt (toeplitz (diagonal_mean M)) i j).
Proof.
  intros H1 H2 H3 Hre Hpw Hw Hsq.
  unfold __normalize_matrix. rewrite H1, H2, H3, Hre, Hpw. cbn [bind].
  destruct (donut_kernel_shape p w) as [k [Hk _]]; [lia |].
  rewrite Hk. cbn [bind]. exists k.
  set (T := toeplitz (diagonal_mean M)).
  assert (HT : shape T = shape M).
  { unfold shape, T. simpl. rewrite diagonal_mean_length. congruence. }
  assert (HTsq : nrows T = ncols T) by reflexivity.
  destruct (apply_donut_convolves w k M Hw Hsq) as [md [-> [Hmds Hmde]]].
  destruct (apply_donut_convolves w k T Hw HTsq) as [ed [-> [Heds Hede]]].
  cbn [bind]. unfold divide, multiply.
  change (shape (convolve2d_same M k)) with (shape M) in Hmds.
  change (shape (convolve2d_same T k)) with (shape T) in Heds.
  destruct (zip_with_same Rdiv md ed) as [q [-> [Hqs Hqe]]]; [congruence |].
  cbn [bind].
  destruct (zip_with_same Rmult q T) as [e [-> [Hes Hee]]]; [congruence |].
  cbn [bind].
  destruct (zip_with_same Rdiv M e) as [res [-> [Hrs Hre']]]; [congruence |].
  exists res. split; [reflexivity |]. split; [reflexivity |]. split; [exact Hrs |].
  intros i j Hi Hj.
  assert (Hmd : nrows md = nrows M /\ ncols md = ncols M)
    by (unfold shape in Hmds; injection Hmds; auto).
  assert (Hed : nrows ed = nrows M /\ ncols ed = ncols M)
    by (unfold shape in Heds, HT; rewrite HT in Heds; injection Heds; auto).
  assert (Hq : nrows q = nrows M /\ ncols q = ncols M)
    by (unfold shape in Hqs, Hmds; rewrite Hmds in Hqs; injection Hqs; auto).
  rewrite Hre' by assumption.
  rewrite Hee by (try rewrite (proj1 Hq); try rewrite (proj2 Hq); assumption).
  rewrite Hqe by (try rewrite (proj1 Hmd); try rewrite (proj2 Hmd); assumption).
  rewrite Hmde by (try rewrite (proj1 Hmd); try rewrite (proj2 Hmd); assumption).
  rewrite Hede by (try rewrite (proj1 Hed); try rewrite (proj2 Hed); assumption).
  reflexivity.
Qed.

Lemma hiccups_result_formula_witness :
  exists kernel res,
    __donut_kernel 1 3 = Ok kernel
    /\ __normalize_matrix "hiccups:3:1" M2 = Ok res
    /\ shape res = shape M2
    /\ forall i j, (i < nrows M2)%nat -> (j < ncols M2)%nat ->
         elt res i j
         = elt M2 i j
           / (elt (convolve2d_same M2 kernel) i j
              / elt (convolve2d_same (toeplitz (diagonal_mean M2)) kernel) i j
              * elt (toeplitz (diagonal_mean M2)) i j).
Proof.
  apply (hiccups_result_formula "hiccups:3:1" 1 3 M2);
    try reflexivity; lia.
Defined.

(** ** 'zscore' *)

Lemma diagonal_std_length (M : ndarray) :
  List.length (diagonal_std M) = nrows M.
Proof.
  unfold diagonal_std. rewrite length_map, length_seq. reflexivity.
Qed.

(** What 'zscore' computes when some diagonal has a positive std. *)
Lemma zscore_entries (M : ndarray) :
  nrows M = ncols M ->
  (exists k, (k < nrows M)%nat /\ 0 < std (diagonal M k)) ->
  exists stds res,
    diagonal_mean_std M = Ok (diagonal_mean M, stds)
    /\ List.length stds = nrows M
    /\ (forall k, (k < nrows M)%nat -> nth k stds 0 <> 0)
    /\ __normalize_matrix "zscore" M = Ok res
    /\ shape res = shape M
    /\ forall i j, (i < nrows M)%nat -> (j < ncols M)%nat ->
         elt res i j
         = (elt M i j - elt (toeplitz (diagonal_mean M)) i j)
           / elt (toeplitz stds) i j.
Proof.
  intros Hsq [k0 [Hk0 Hpos0]].
  assert (Hin0 : In (std (diagonal M k0)) (filter is_positive (diagonal_std M))).
  { apply filter_In. split; [| apply is_positive_true, Hpos0].
    unfold diagonal_std. apply in_map_iff. exists k0.
    split; [reflexivity | apply in_seq; lia]. }
  destruct (min_list_spec (filter is_positive (diagonal_std M)))
    as [m [Hmin [Hm_in _]]]; [intro Hnil; rewrite Hnil in Hin0; exact Hin0 |].
  apply filter_In in Hm_in. destruct Hm_in as [_ Hm_pos].
  apply is_positive_true in Hm_pos.
  set (stds := map (fun s => if is_zero s then m else s) (diagonal_std M)).
  assert (Hlen : List.length stds = nrows M)
    by (unfold stds; rewrite length_map; apply diagonal_std_length).
  assert (Hnz : forall k, (k < nrows M)%nat -> nth k stds 0 <> 0).
  { intros k Hk. unfold stds.
    rewrite nth_map_in by (rewrite diagonal_std_length; exact Hk).
    destruct (is_zero (nth k (diagonal_std M) 0)) eqn:Hz;
      [lra | apply is_zero_false, Hz]. }
  assert (Hdms : diagonal_mean_std M = Ok (diagonal_mean M, stds)).
  { unfold diagonal_mean_std. rewrite Hmin. reflexivity. }
  unfold __normalize_matrix. cbn [String.eqb Ascii.eqb Bool.eqb].
  rewrite Hdms. cbn [bind]. unfold subtract, divide.
  destruct (zip_with_same Rminus M (toeplitz (diagonal_mean M)))
    as [centred [-> [Hcs Hce]]].
  { unfold shape. simpl. rewrite diagonal_mean_length. congruence. }
  cbn [bind].
  destruct (zip_with_same Rdiv centred (toeplitz stds)) as [res [-> [Hrs Hre]]].
  { rewrite Hcs. unfold shape. simpl. rewrite Hlen. congruence. }
  exists stds, res.
  repeat (split; [first [reflexivity | assumption | congruence] |]).
  intros i j Hi Hj.
  pose proof (f_equal fst Hcs) as Hcr. pose proof (f_equal snd Hcs) as Hcc.
  cbn [fst snd shape] in Hcr, Hcc.
  rewrite Hre, Hce by congruence. reflexivity.
Qed.

Lemma sum_list_centred (f : nat -> R) (m s : R) (l : list nat) :
  sum_list (map (fun i => (f i - m) / s) l)
  = (sum_list (map f l) - INR (List.length l) * m) / s.
Proof.
  induction l as [| a l IH].
  - cbn. unfold Rdiv. ring.
  - cbn [map sum_list fold_right List.length].
    fold (sum_list (map (fun i => (f i - m) / s) l)).
    fold (sum_list (map f l)).
    rewrite IH, S_INR. unfold Rdiv. ring.
Qed.

(** X13.  For a square matrix with a diagonal of positive std, every
    diagonal at or above the main diagonal of the 'zscore' result has mean
    zero. *)
Theorem zscore_diagonals_have_mean_zero (M : ndarray) :
  nrows M = ncols M ->
  (exists k, (k < nrows M)%nat /\ 0 < std (diagonal M k)) ->
  exists res,
    __normalize_matrix "zscore" M = Ok res
    /\ forall k, (k < nrows M)%nat -> mean (diagonal res k) = 0.
Proof.
  intros Hsq Hpos.
  destruct (zscore_entries M Hsq Hpos)
    as [stds [res [_ [Hlen [Hnz [Hres [Hshape Helt]]]]]]].
  exists res. split; [exact Hres |].
  intros k Hk.
  pose proof (f_equal fst Hshape) as Hr. pose proof (f_equal snd Hshape) as Hc.
  cbn [fst snd shape] in Hr, Hc.
  unfold diagonal at 1. rewrite Hr, Hc, <- Hsq.
  replace (Nat.min (nrows M) (nrows M - k)) with (nrows M - k)%nat by lia.
  rewrite (map_ext_in _ (fun i => (elt M i (i + k) - nth k (diagonal_mean M) 0)
                                  / nth k stds 0)).
  2:{ intros i Hi. apply in_seq in Hi.
      rewrite Helt by lia. rewrite !toeplitz_elt.
      replace (Z.abs_nat (Z.of_nat i - Z.of_nat (i + k))) with k by lia.
      reflexivity. }
  unfold mean at 1. rewrite sum_list_centred, length_map, length_seq.
  unfold diagonal_mean. rewrite nth_map_seq by exact Hk.
  unfold mean, diagonal. rewrite <- Hsq, length_map, length_seq.
  replace (Nat.min (nrows M) (nrows M - k)) with (nrows M - k)%nat by lia.
  assert (Hn : INR (nrows M - k) <> 0) by (apply not_0_INR; lia).
  specialize (Hnz k Hk).
  field. split; assumption.
Qed.

Lemma zscore_diagonals_have_mean_zero_witness :
  exists res,
    __normalize_matrix "zscore" M2 = Ok res
    /\ forall k, (k < nrows M2)%nat -> mean (diagonal res k) = 0.
Proof.
  apply (zscore_diagonals_have_mean_zero M2).
  - reflexivity.
  - exists 0%nat. split; [simpl; lia | exact M2_first_diagonal_std].
Defined.

(** ** The four stages *)

Section Stages.

Variable gaussian_filter : ndarray -> value -> outcome ndarray.
Variable eval : string -> outcome value.

(** X14.  The four stages are independent and run in the order transform,
    normalize, gaussian_sigma, process_func: the pipeline for a
    configuration is the pipeline for its transform entry alone, followed
    by the one for its normalize entry alone, then gaussian_sigma, then
    process_func, and it stops at the first stage that raises. *)
Theorem stages_compose (props : properties) (M : ndarray) :
  normalize_matrix gaussian_filter eval props M
  = (a <- normalize_matrix gaussian_filter eval (transform_of props) M ;;
     b <- normalize_matrix gaussian_filter eval (normalize_of props) a ;;
     c <- normalize_matrix gaussian_filter eval (gaussian_sigma_of props) b ;;
     normalize_matrix gaussian_filter eval (process_func_of props) c).
Proof.
  destruct props as [t n g f].
  unfold normalize_matrix, transform_of, normalize_of, gaussian_sigma_of,
    process_func_of.
  cbn [transform normalize gaussian_sigma process_func enabled enabled_str bind].
  destruct (enabled_str n) as [mode |]; cbn [bind].
  - destruct (__normalize_matrix mode _) as [b | e]; cbn [bind]; [| reflexivity].
    destruct (enabled g) as [sigma |]; cbn [bind]; [| reflexivity].
    destruct (__gaussian_matrix gaussian_filter sigma b); reflexivity.
  - destruct (enabled g) as [sigma |]; cbn [bind]; [| reflexivity].
    destruct (__gaussian_matrix gaussian_filter sigma _); reflexivity.
Qed.

(** X15.  When the three first stages return [c] and process_func is
    switched on, the user function is applied to [c]; whatever it raises
    (also when it is a string that [eval] rejects or that evaluates to
    something that is no function) becomes the one [ValueError] of
    [normalize_matrix], and a process_func that is a number always ends
    in that error. *)
Theorem process_func_errors_are_wrapped
    (t n : option string) (g : option value) (func : value) (M c : ndarray) :
  is_no func = false ->
  normalize_matrix gaussian_filter eval (Properties t n g None) M = Ok c ->
  normalize_matrix gaussian_filter eval (Properties t n g (Some func)) M
    = match call_process_func eval func c with
      | Ok res => Ok res
      | Raise _ => Raise process_func_error
      end
  /\ (forall x, func = Num x ->
        normalize_matrix gaussian_filter eval (Properties t n g (Some func)) M
        = Raise process_func_error).
Proof.
  intros Hno Hc.
  assert (Hrun : normalize_matrix gaussian_filter eval
                   (Properties t n g (Some func)) M
                 = match call_process_func eval func c with
                   | Ok res => Ok res
                   | Raise _ => Raise process_func_error
                   end).
  { revert Hc. unfold normalize_matrix.
    cbn [transform normalize gaussian_sigma process_func enabled].
    rewrite Hno.
    destruct (match enabled_str n with
              | Some norm_mth => __normalize_matrix norm_mth _
              | None => Ok _
              end) as [b | e]; cbn [bind]; [| discriminate].
    destruct (match enabled g with
              | Some sigma => __gaussian_matrix gaussian_filter sigma b
              | None => Ok b
              end) as [c' | e]; cbn [bind]; [| discriminate].
    intro H. injection H as ->. reflexivity. }
  split; [exact Hrun |].
  intros x ->. rewrite Hrun. reflexivity.
Qed.

End Stages.

Lemma process_func_errors_are_wrapped_witness :
  normalize_matrix unused_gaussian_filter unused_eval
      (Properties None None None (Some (Num 3))) M2
    = match call_process_func unused_eval (Num 3) M2 with
      | Ok res => Ok res
      | Raise _ => Raise process_func_error
      end
  /\ (forall x, Num 3 = Num x ->
        normalize_matrix unused_gaussian_filter unused_eval
          (Properties None None None (Some (Num 3))) M2
        = Raise process_func_error).
Proof.
  apply (process_func_errors_are_wrapped unused_gaussian_filter unused_eval
           None None None (Num 3) M2 M2); reflexivity.
Defined.

End NormalisationLaws.

(* ================================================================== *)
(** * Further properties of the loop-file index *)
(* ================================================================== *)

Module LoopIndexLaws.

Import Py HiCPeaks HiCPeaksProperties.
Local Open Scope Z_scope.
Local Open Scope string_scope.

(** ** Loops of the run time *)

Lemma for_each_invariant {A S : Type} (P : S -> Prop)
    (body : S -> A -> outcome S) (xs : list A) :
  (forall s x s', P s -> body s x = Ok s' -> P s') ->
  forall s s', P s -> for_each xs body s = Ok s' -> P s'.
Proof.
  intro Hstep. induction xs as [| x xs IH]; intros s s' Hs Hrun.
  - cbn in Hrun. injection Hrun as <-. exact Hs.
  - cbn in Hrun. destruct (body s x) as [s1 |] eqn:Hb; [| discriminate].
    cbn in Hrun. eapply IH; [eapply Hstep; eassumption | exact Hrun].
Qed.

Lemma for_each_raises_under {A S : Type} (P : S -> Prop)
    (body : S -> A -> outcome S) (xs : list A) (x : A) :
  (forall s y s', P s -> body s y = Ok s' -> P s') ->
  In x xs -> (forall s, P s -> raises (body s x) = true) ->
  forall s, P s -> raises (for_each xs body s) = true.
Proof.
  intros Hstep Hin Hbad. induction xs as [| y xs IH]; [contradiction |].
  intros s Hs. cbn. destruct Hin as [-> | Hin].
  - specialize (Hbad s Hs). destruct (body s x); [discriminate | reflexivity].
  - destruct (body s y) as [s1 |] eqn:Hb; [cbn | reflexivity].
    apply IH; [exact Hin | eapply Hstep; eassumption].
Qed.

Lemma for_each_enumerate {A S : Type} (body : S -> A -> outcome S)
    (g : S -> nat * A -> outcome S) (xs : list A) (n : nat) :
  (forall s k x, (n <= k)%nat -> g s (k, x) = body s x) ->
  forall s, for_each (enumerate_from n xs) g s = for_each xs body s.
Proof.
  revert n. induction xs as [| y xs IH]; intros n Hg s; [reflexivity |].
  cbn. rewrite Hg by lia.
  destruct (body s y); [cbn | reflexivity].
  apply IH. intros s' k x Hk. apply Hg. lia.
Qed.

Lemma in_enumerate_from {A : Type} (xs : list A) (n k : nat) (x : A) :
  nth_error xs k = Some x -> In ((n + k)%nat, x) (enumerate_from n xs).
Proof.
  revert n k. induction xs as [| y xs IH]; intros n k Hk.
  - destruct k; discriminate.
  - destruct k as [| k]; cbn in *.
    + injection Hk as ->. left. f_equal. lia.
    + right. replace (n + S k)%nat with (S n + k)%nat by lia. apply IH, Hk.
Qed.

(** ** The dictionary and the trees *)

Lemma dict_get_set (d : dict) (k k' : string) (v : IntervalTree) :
  dict_get (dict_set d k v) k' = if String.eqb k' k then Some v else dict_get d k'.
Proof.
  induction d as [| [k0 v0] d IH]; cbn.
  - reflexivity.
  - destruct (String.eqb_spec k k0) as [-> | Hk]; cbn.
    + destruct (String.eqb_spec k' k0); reflexivity.
    + rewrite IH. destruct (String.eqb_spec k' k0) as [-> | Hk'].
      * destruct (String.eqb_spec k0 k); [congruence | reflexivity].
      * reflexivity.
Qed.

Lemma dict_get_set_same (d : dict) (k : string) (v : IntervalTree) :
  dict_get (dict_set d k v) k = Some v.
Proof.
  rewrite dict_get_set, String.eqb_refl. reflexivity.
Qed.

Lemma dict_set_same (d : dict) (k : string) (v : IntervalTree) :
  dict_get d k = Some v -> dict_set d k v = d.
Proof.
  induction d as [| [k0 v0] d IH]; cbn; [discriminate |].
  destruct (String.eqb_spec k k0) as [-> | Hk].
  - intro H. injection H as ->. reflexivity.
  - intro H. rewrite IH by exact H. reflexivity.
Qed.

Lemma interval_eqb_refl (iv : Interval) : interval_eqb iv iv = true.
Proof.
  unfold interval_eqb, loop_eqb.
  rewrite !Z.eqb_refl, !String.eqb_refl. reflexivity.
Qed.

Lemma interval_eqb_bounds (a b : Interval) :
  interval_eqb a b = true -> i_begin a = i_begin b /\ i_end a = i_end b.
Proof.
  unfold interval_eqb. intro H.
  apply andb_true_iff in H. destruct H as [H _].
  apply andb_true_iff in H. destruct H as [H1 H2].
  apply Z.eqb_eq in H1. apply Z.eqb_eq in H2. auto.
Qed.

Lemma tree_add_in (t t' : IntervalTree) (iv x : Interval) :
  tree_add t iv = Ok t' -> In x t' ->
  In x t \/ (x = iv /\ i_begin iv < i_end iv).
Proof.
  unfold tree_add. destruct (tree_mem iv t).
  - intro H. injection H as <-. auto.
  - destruct (Z.leb_spec (i_end iv) (i_begin iv)) as [Hle | Hlt]; [discriminate |].
    intro Hok. injection Hok as <-. intro Hin. apply in_app_or in Hin.
    destruct Hin as [Hin | [<- | []]];
      [left; exact Hin | right; split; [reflexivity | lia]].
Qed.

Lemma tree_add_mem (t t' : IntervalTree) (iv : Interval) :
  tree_add t iv = Ok t' -> tree_mem iv t' = true.
Proof.
  unfold tree_add. destruct (tree_mem iv t) eqn:Hm.
  - intro H. injection H as <-. exact Hm.
  - destruct (i_end iv <=? i_begin iv)%Z; [discriminate |].
    intro H. injection H as <-. unfold tree_mem.
    rewrite existsb_app. cbn. rewrite interval_eqb_refl, orb_true_r. reflexivity.
Qed.

(** ** [sorted] *)







(** ** Loading *)

Section Loading.

Variable change_chrom_names : string -> string.

Lemma process_line_keeps_well_indexed (d d' : dict) (line : string) :
  well_indexed change_chrom_names d ->
  process_line change_chrom_names d line = Ok d' ->
  well_indexed change_chrom_names d'.
Proof.
  intros Hd. unfold process_line.
  destruct (str_split_ws line)
    as [| c1 [| sx1 [| sx2 [| c2 [| sy1 [| sy2 other]]]]]]; try discriminate.
  destruct (int sx1) as [vx1 |]; [cbn [bind] | discriminate].
  destruct (int sx2) as [vx2 |]; [cbn [bind] | discriminate].
  destruct (int sy1) as [vy1 |]; [cbn [bind] | discriminate].
  destruct (int sy2) as [vy2 |]; [cbn [bind] | discriminate].
  destruct (String.eqb_spec c1 c2) as [<- | Hne]; cbn [negb].
  2:{ intro H. injection H as <-. exact Hd. }
  set (chromosome := if negb (str_startswith "chr" c1)
                     then change_chrom_names c1 else c1).
  set (d1 := if negb (dict_contains d chromosome)
             then dict_set d chromosome [] else d).
  assert (Hd1 : well_indexed change_chrom_names d1).
  { unfold d1. destruct (dict_contains d chromosome); cbn [negb]; [exact Hd |].
    intros key tree iv Hget Hin. rewrite dict_get_set in Hget.
    destruct (String.eqb key chromosome).
    - injection Hget as <-. contradiction.
    - eapply Hd; eassumption. }
  destruct (match other with
            | [] => Ok DEFAULT_COLOR
            | o :: _ => rgb <- map_outcome int (str_split "," o);; rgb2hex rgb
            end) as [col |]; [cbn [bind] | discriminate].
  unfold dict_item. destruct (dict_get d1 chromosome) as [t |] eqn:Ht;
    [cbn [bind] | discriminate].
  destruct (tree_add t _) as [t' |] eqn:Hadd; [cbn [bind] | discriminate].
  intro H. injection H as <-.
  intros key tree iv Hget Hin. rewrite dict_get_set in Hget.
  destruct (String.eqb_spec key chromosome) as [-> | Hk].
  - injection Hget as <-.
    destruct (tree_add_in _ _ _ _ Hadd Hin) as [Hold | [-> Hlt]].
    + eapply Hd1; eassumption.
    + cbn in Hlt. repeat split; try reflexivity. exact Hlt.
  - eapply Hd1; eassumption.
Qed.

Lemma loop_body_keeps_well_indexed (s s' : dict) (numbered : nat * string) :
  well_indexed change_chrom_names s ->
  (let '(idx, line) := numbered in
   header <- (if (idx =? 0)%nat then __is_header line else Ok false) ;;
   if header then Ok s else process_line change_chrom_names s line) = Ok s' ->
  well_indexed change_chrom_names s'.
Proof.
  destruct numbered as [idx line]. intro Hs.
  destruct (if (idx =? 0)%nat then __is_header line else Ok false) as [h |];
    [cbn [bind] | discriminate].
  destruct h.
  - intro H. injection H as <-. exact Hs.
  - apply process_line_keeps_well_indexed, Hs.
Qed.

Lemma empty_dict_well_indexed : well_indexed change_chrom_names [].
Proof.
  intros key tree iv Hget. discriminate.
Qed.

(** X16.  Whatever file is loaded, every interval of the index spans from
    the start of the first anchor to the end of the second anchor of its
    loop, belongs to a loop within one chromosome, is not empty, and is
    stored under the name of that chromosome (changed by
    [change_chrom_names] when it does not start with "chr"). *)
Theorem loaded_index_is_well_indexed (content : string) (d : dict) :
  __process_loop_file change_chrom_names content = Ok d ->
  well_indexed change_chrom_names d.
Proof.
  unfold __process_loop_file.
  apply (for_each_invariant (well_indexed change_chrom_names)).
  - intros s x s' Hs. apply loop_body_keeps_well_indexed, Hs.
  - apply empty_dict_well_indexed.
Qed.

(** X17.  Only the first line of the file is tested for being a header:
    when it is one, the index is built from the lines after it, when it is
    none, from all lines, and when the test itself fails (a first line of
    too few fields) the load fails with that error. *)
Theorem only_the_first_line_can_be_a_header
    (content first : string) (rest : list string) :
  readlines content = first :: rest ->
  (__is_header first = Ok true ->
     __process_loop_file change_chrom_names content
     = for_each rest (process_line change_chrom_names) [])
  /\ (__is_header first = Ok false ->
     __process_loop_file change_chrom_names content
     = for_each (first :: rest) (process_line change_chrom_names) [])
  /\ (forall e, __is_header first = Raise e ->
     __process_loop_file change_chrom_names content = Raise e).
Proof.
  intro Hlines. unfold __process_loop_file. rewrite Hlines.
  cbn [enumerate_from for_each Nat.eqb].
  assert (Hrest : forall s,
            for_each (enumerate_from 1 rest)
              (fun (interval_tree : dict) (numbered : nat * string) =>
                 let '(idx, line) := numbered in
                 header <- (if (idx =? 0)%nat then __is_header line else Ok false) ;;
                 if header then Ok interval_tree
                 else process_line change_chrom_names interval_tree line) s
            = for_each rest (process_line change_chrom_names) s).
  { apply for_each_enumerate. intros s k x Hk.
    destruct k; [lia | reflexivity]. }
  repeat split.
  - intros ->. cbn [bind]. apply Hrest.
  - intros ->. cbn [bind].
    destruct (process_line change_chrom_names [] first); cbn [bind];
      [apply Hrest | reflexivity].
  - intros e ->. reflexivity.
Qed.

Lemma process_line_unreadable (d : dict) (line : string) :
  unreadable line = true ->
  raises (process_line change_chrom_names d line) = true.
Proof.
  unfold unreadable, process_line.
  destruct (str_split_ws line)
    as [| c1 [| sx1 [| sx2 [| c2 [| sy1 [| sy2 other]]]]]]; try reflexivity.
  destruct (int sx1); [cbn [bind raises orb] | reflexivity].
  destruct (int sx2); [cbn [bind raises orb] | reflexivity].
  destruct (int sy1); [cbn [bind raises orb] | reflexivity].
  destruct (int sy2); [cbn [bind raises orb] | reflexivity].
  discriminate.
Qed.

(** X18.  There is no partial load: when any line after the first has
    fewer than six fields or a coordinate that is no integer literal, the
    whole load raises and no index is returned. *)
Theorem unreadable_line_fails_the_load
    (content : string) (k : nat) (line : string) :
  nth_error (readlines content) (S k) = Some line ->
  unreadable line = true ->
  raises (__process_loop_file change_chrom_names content) = true.
Proof.
  intros Hk Hbad. unfold __process_loop_file.
  apply (for_each_raises_under (fun _ => True) _ _ (S k, line)); auto.
  - apply (in_enumerate_from _ 0 (S k)), Hk.
  - intros s _. cbn [Nat.eqb bind]. apply process_line_unreadable, Hbad.
Qed.

(** X19.  A line whose two chromosome names differ, with four integer
    coordinates, leaves the index as it is. *)
Theorem other_chromosome_pairs_are_skipped
    (d : dict) (line c1 sx1 sx2 c2 sy1 sy2 : string) (other : list string) :
  str_split_ws line = c1 :: sx1 :: sx2 :: c2 :: sy1 :: sy2 :: other ->
  raises (int sx1) = false -> raises (int sx2) = false ->
  raises (int sy1) = false -> raises (int sy2) = false ->
  c1 <> c2 ->
  process_line change_chrom_names d line = Ok d.
Proof.
  intros Hf H1 H2 H3 H4 Hne. unfold process_line. rewrite Hf.
  destruct (int sx1); [cbn [bind] | discriminate].
  destruct (int sx2); [cbn [bind] | discriminate].
  destruct (int sy1); [cbn [bind] | discriminate].
  destruct (int sy2); [cbn [bind] | discriminate].
  destruct (String.eqb_spec c1 c2); [contradiction | reflexivity].
Qed.

(** X20.  A line that was read once changes nothing when it is read
    again: a loop listed twice in the file is indexed once. *)
Theorem repeated_line_changes_nothing (d d1 : dict) (line : string) :
  process_line change_chrom_names d line = Ok d1 ->
  process_line change_chrom_names d1 line = Ok d1.
Proof.
  unfold process_line.
  destruct (str_split_ws line)
    as [| c1 [| sx1 [| sx2 [| c2 [| sy1 [| sy2 other]]]]]]; try discriminate.
  destruct (int sx1) as [vx1 |]; [cbn [bind] | discriminate].
  destruct (int sx2) as [vx2 |]; [cbn [bind] | discriminate].
  destruct (int sy1) as [vy1 |]; [cbn [bind] | discriminate].
  destruct (int sy2) as [vy2 |]; [cbn [bind] | discriminate].
  destruct (String.eqb_spec c1 c2) as [<- | Hne]; cbn [negb].
  2:{ intro H. injection H as <-. reflexivity. }
  set (chromosome := if negb (str_startswith "chr" c1)
                     then change_chrom_names c1 else c1).
  destruct (match other with
            | [] => Ok DEFAULT_COLOR
            | o :: _ => rgb <- map_outcome int (str_split "," o);; rgb2hex rgb
            end) as [col |]; [cbn [bind] | discriminate].
  set (d0 := if negb (dict_contains d chromosome)
             then dict_set d chromosome [] else d).
  unfold dict_item at 1.
  destruct (dict_get d0 chromosome) as [t |] eqn:Ht; [cbn [bind] | discriminate].
  destruct (tree_add t _) as [t' |] eqn:Hadd; [cbn [bind] | discriminate].
  intro H. injection H as <-.
  assert (Hget : dict_get (dict_set d0 chromosome t') chromosome = Some t')
    by apply dict_get_set_same.
  unfold dict_contains. rewrite Hget. cbn [negb].
  unfold dict_item. rewrite Hget. cbn [bind].
  unfold tree_add at 1. rewrite (tree_add_mem _ _ _ Hadd). cbn [bind].
  rewrite dict_set_same by exact Hget. reflexivity.
Qed.

Lemma process_line_empty_span (d : dict)
    (line c sx1 sx2 sy1 sy2 : string) (other : list string) (vx1 vx2 vy1 vy2 : Z) :
  well_indexed change_chrom_names d ->
  str_split_ws line = c :: sx1 :: sx2 :: c :: sy1 :: sy2 :: other ->
  int sx1 = Ok vx1 -> int sx2 = Ok vx2 -> int sy1 = Ok vy1 -> int sy2 = Ok vy2 ->
  vy2 <= vx1 ->
  raises (process_line change_chrom_names d line) = true.
Proof.
  intros Hd Hf H1 H2 H3 H4 Hle. unfold process_line.
  rewrite Hf, H1, H2, H3, H4. cbn [bind].
  rewrite String.eqb_refl. cbn [negb].
  set (chromosome := if negb (str_startswith "chr" c)
                     then change_chrom_names c else c).
  set (d1 := if negb (dict_contains d chromosome)
             then dict_set d chromosome [] else d).
  assert (Hd1 : well_indexed change_chrom_names d1).
  { unfold d1. destruct (dict_contains d chromosome); cbn [negb]; [exact Hd |].
    intros key tree iv Hget Hin. rewrite dict_get_set in Hget.
    destruct (String.eqb key chromosome).
    - injection Hget as <-. contradiction.
    - eapply Hd; eassumption. }
  destruct (match other with
            | [] => Ok DEFAULT_COLOR
            | o :: _ => rgb <- map_outcome int (str_split "," o);; rgb2hex rgb
            end) as [col |]; [cbn [bind] | reflexivity].
  unfold dict_item. destruct (dict_get d1 chromosome) as [t |] eqn:Ht;
    [cbn [bind] | reflexivity].
  unfold tree_add.
  destruct (tree_mem _ t) eqn:Hmem.
  - exfalso. unfold tree_mem in Hmem. apply existsb_exists in Hmem.
    destruct Hmem as [x [Hx Heq]]. apply interval_eqb_bounds in Heq.
    cbn [i_begin i_end] in Heq. destruct Heq as [Hb He].
    destruct (Hd1 chromosome t x Ht Hx) as [_ [_ [_ [Hlt _]]]]. lia.
  - cbn [i_begin i_end]. destruct (Z.leb_spec vy2 vx1); [reflexivity | lia].
Qed.

(** X21.  A line after the first, on one chromosome, whose second anchor
    ends at or before the start of its first anchor (y2 <= x1) would be an
    empty interval: the tree refuses it and the whole load raises. *)
Theorem empty_span_fails_the_load
    (content : string) (k : nat)
    (line c sx1 sx2 sy1 sy2 : string) (other : list string) (vx1 vx2 vy1 vy2 : Z) :
  nth_error (readlines content) (S k) = Some line ->
  str_split_ws line = c :: sx1 :: sx2 :: c :: sy1 :: sy2 :: other ->
  int sx1 = Ok vx1 -> int sx2 = Ok vx2 -> int sy1 = Ok vy1 -> int sy2 = Ok vy2 ->
  vy2 <= vx1 ->
  raises (__process_loop_file change_chrom_names content) = true.
Proof.
  intros Hk Hf H1 H2 H3 H4 Hle. unfold __process_loop_file.
  apply (for_each_raises_under (well_indexed change_chrom_names) _ _ (S k, line)).
  - intros s x s' Hs. apply loop_body_keeps_well_indexed, Hs.
  - apply (in_enumerate_from _ 0 (S k)), Hk.
  - intros s Hs. cbn [Nat.eqb bind].
    eapply process_line_empty_span; eassumption.
  - apply empty_dict_well_indexed.
Qed.

(** ** Queries *)



(** X23.  A chromosome name that is no key of the index, but is one after
    [change_chrom_names], is answered as the changed name is: the query
    does not raise and gives the same intervals. *)
Theorem query_retries_with_changed_name
    (d : dict) (fetch_region : option (Z * Z)) (chrom : string)
    (tree : IntervalTree) (start stop : Z) :
  dict_contains d chrom = false ->
  dict_get d (change_chrom_names chrom) = Some tree ->
  plot_intervals change_chrom_names d fetch_region chrom start stop
  = plot_intervals change_chrom_names d fetch_region
      (change_chrom_names chrom) start stop
  /\ raises (plot_intervals change_chrom_names d fetch_region chrom start stop)
     = false.
Proof.
  intros Habs Hget.
  assert (Hc : dict_contains d (change_chrom_names chrom) = true)
    by (unfold dict_contains; rewrite Hget; reflexivity).
  unfold plot_intervals. rewrite Habs, Hc. cbn [negb].
  split; [reflexivity |].
  unfold dict_item. rewrite Hget.
  destruct fetch_region as [[s e] |]; reflexivity.
Qed.

End Loading.

(** ** Instances *)

Lemma loaded_index_is_well_indexed_witness :
  __process_loop_file (fun c => c) one_loop_file = Ok one_loop_index
  /\ well_indexed (fun c => c) one_loop_index.
Proof.
  split; [vm_compute; reflexivity |].
  apply (loaded_index_is_well_indexed (fun c => c) one_loop_file).
  vm_compute. reflexivity.
Defined.

Lemma only_the_first_line_can_be_a_header_witness :
  (__is_header header_line = Ok true ->
     __process_loop_file (fun c => c) (header_line ++ one_loop_file)
     = for_each [one_loop_file] (process_line (fun c => c)) [])
  /\ (__is_header header_line = Ok false ->
     __process_loop_file (fun c => c) (header_line ++ one_loop_file)
     = for_each [header_line; one_loop_file] (process_line (fun c => c)) [])
  /\ (forall e, __is_header header_line = Raise e ->
     __process_loop_file (fun c => c) (header_line ++ one_loop_file) = Raise e).
Proof.
  apply (only_the_first_line_can_be_a_header (fun c => c)
           (header_line ++ one_loop_file) header_line [one_loop_file]).
  vm_compute. reflexivity.
Defined.

Lemma unreadable_line_fails_the_load_witness :
  raises (__process_loop_file (fun c => c) (one_loop_file ++ short_line)) = true.
Proof.
  apply (unreadable_line_fails_the_load (fun c => c)
           (one_loop_file ++ short_line) 0 short_line);
    vm_compute; reflexivity.
Defined.

Lemma other_chromosome_pairs_are_skipped_witness :
  process_line (fun c => c) one_loop_index two_chromosome_line = Ok one_loop_index.
Proof.
  apply (other_chromosome_pairs_are_skipped (fun c => c) one_loop_index
           two_chromosome_line "chr1" "1" "2" "chr2" "3" "4" []);
    try (vm_compute; reflexivity).
  discriminate.
Defined.

Lemma repeated_line_changes_nothing_witness :
  process_line (fun c => c) one_loop_index one_loop_file = Ok one_loop_index.
Proof.
  apply (repeated_line_changes_nothing (fun c => c) [] one_loop_index one_loop_file).
  vm_compute. reflexivity.
Defined.

Lemma empty_span_fails_the_load_witness :
  raises (__process_loop_file (fun c => c) (one_loop_file ++ backwards_line)) = true.
Proof.
  apply (empty_span_fails_the_load (fun c => c)
           (one_loop_file ++ backwards_line) 0 backwards_line
           "chr1" "600" "700" "100" "200" [] 600 700 100 200);
    try (vm_compute; reflexivity).
  lia.
Defined.


Lemma query_retries_with_changed_name_witness :
  plot_intervals (String.append "chr") one_loop_index None "1" 50 300
  = plot_intervals (String.append "chr") one_loop_index None
      (String.append "chr" "1") 50 300
  /\ raises (plot_intervals (String.append "chr") one_loop_index None "1" 50 300)
     = false.
Proof.
  apply (query_retries_with_changed_name (String.append "chr") one_loop_index
           None "1" [MkInterval 100 600 red_loop] 50 300); reflexivity.
Defined.

End LoopIndexLaws.

(* ================================================================== *)
(** * The box drawn for a loop *)
(* ================================================================== *)

Module LoopBoxLaws.

Import Py HiCPeaks.
Local Open Scope R_scope.
Local Open Scope string_scope.

Lemma half_over_inv_root (s x : R) :
  s <> 0 -> s * s = 2 -> x / 2 / (1 / s) = x / s.
Proof.
  intros Hs Hsq. rewrite <- Hsq. field. exact Hs.
Qed.

(** X24.  In the triangular and window styles the box is anchored where
    the two anchors of the loop meet under a rotation by 45 degrees:
    x - y is the midpoint of the first anchor, x + y the midpoint of the
    second, and width and height are the lengths of the second and first
    anchor divided by the square root of 2. *)
Theorem triangular_box_geometry
    (start1 end1 start2 end2 : Z) (style side : string) :
  style = STYLE_TRIANGULAR \/ style = STYLE_WINDOW ->
  exists x y w h,
    __get_position_and_size start1 end1 start2 end2 style side
      = Some (x, y, (w, h))
    /\ x - y = IZR (start1 + end1) / 2
    /\ x + y = IZR (start2 + end2) / 2
    /\ w = IZR (end2 - start2) / sqrt 2
    /\ h = IZR (end1 - start1) / sqrt 2.
Proof.
  assert (Hs : sqrt 2 <> 0) by (apply Rgt_not_eq, sqrt_lt_R0; lra).
  intros [-> | ->]; unfold __get_position_and_size;
    cbn [String.eqb Ascii.eqb Bool.eqb orb
         STYLE_MATRIX STYLE_TRIANGULAR STYLE_WINDOW];
    cbv zeta; rewrite cos_PI4; do 4 eexists;
    (split; [reflexivity |]);
    (split; [| split; [| split]]);
    first [ lra | apply half_over_inv_root; [exact Hs | apply sqrt_sqrt; lra] ].
Qed.

Lemma triangular_box_geometry_witness :
  exists x y w h,
    __get_position_and_size 100 200 500 600 STYLE_TRIANGULAR "upper"
      = Some (x, y, (w, h))
    /\ x - y = IZR (100 + 200) / 2
    /\ x + y = IZR (500 + 600) / 2
    /\ w = IZR (600 - 500) / sqrt 2
    /\ h = IZR (200 - 100) / sqrt 2.
Proof.
  apply (triangular_box_geometry 100 200 500 600 STYLE_TRIANGULAR "upper").
  left. reflexivity.
Defined.

(** X25.  In the matrix style the box for a side other than "upper" is the
    mirror image of the box for "upper" across the diagonal: x and y are
    exchanged, and so are width and height, which are the lengths of the
    second and the first anchor.  A style that is none of the three has no
    box. *)
Theorem matrix_boxes_mirror_each_other
    (start1 end1 start2 end2 : Z) (side : string) :
  side <> "upper" ->
  (exists x y w h,
     __get_position_and_size start1 end1 start2 end2 STYLE_MATRIX "upper"
       = Some (x, y, (w, h))
     /\ __get_position_and_size start1 end1 start2 end2 STYLE_MATRIX side
       = Some (y, x, (h, w))
     /\ w = IZR (end2 - start2) /\ h = IZR (end1 - start1))
  /\ forall style,
       style <> STYLE_TRIANGULAR -> style <> STYLE_WINDOW ->
       style <> STYLE_MATRIX ->
       __get_position_and_size start1 end1 start2 end2 style side = None.
Proof.
  intro Hside. split.
  - unfold __get_position_and_size.
    cbn [String.eqb Ascii.eqb Bool.eqb orb
         STYLE_MATRIX STYLE_TRIANGULAR STYLE_WINDOW].
    destruct (String.eqb_spec side "upper"); [contradiction |].
    do 4 eexists. repeat split.
  - intros style H1 H2 H3. unfold __get_position_and_size.
    destruct (String.eqb_spec style STYLE_TRIANGULAR); [contradiction |].
    destruct (String.eqb_spec style STYLE_WINDOW); [contradiction |].
    destruct (String.eqb_spec style STYLE_MATRIX); [contradiction |].
    reflexivity.
Qed.

Lemma matrix_boxes_mirror_each_other_witness :
  (exists x y w h,
     __get_position_and_size 100 200 500 600 STYLE_MATRIX "upper"
       = Some (x, y, (w, h))
     /\ __get_position_and_size 100 200 500 600 STYLE_MATRIX "lower"
       = Some (y, x, (h, w))
     /\ w = IZR (600 - 500) /\ h = IZR (200 - 100))
  /\ forall style,
       style <> STYLE_TRIANGULAR -> style <> STYLE_WINDOW ->
       style <> STYLE_MATRIX ->
       __get_position_and_size 100 200 500 600 style "lower" = None.
Proof.
  apply (matrix_boxes_mirror_each_other 100 200 500 600 "lower").
  discriminate.
Defined.

End LoopBoxLaws.

(* ================================================================== *)
(** * Properties of the construction of a coverage *)
(* ================================================================== *)

Module CoverageLaws.

Import Py CoverageBase HiCPeaks HiCPeaksInit.
Local Open Scope string_scope.
Local Open Scope list_scope.

(** ** Dictionaries *)


Lemma pget_in_keys (d : pdict) (k : string) :
  pget d k = None <-> ~ In k (map fst d).
Proof.
  induction d as [|[k' v] rest IH]; simpl.
  - tauto.
  - destruct (String.eqb_spec k k') as [->|Hne].
    + split; [discriminate | intros H; exfalso; apply H; now left].
    + rewrite IH. split.
      * intros H [Heq|Hin]; [now apply Hne | now apply H].
      * intros H Hin. apply H. now right.
Qed.

Lemma pget_pset (d : pdict) (k k' : string) (v : pvalue) :
  pget (pset d k v) k' = if String.eqb k' k then Some v else pget d k'.
Proof.
  induction d as [|[k0 v0] rest IH]; simpl.
  - now destruct (String.eqb k' k).
  - destruct (String.eqb_spec k k0) as [->|Hne]; simpl.
    + now destruct (String.eqb k' k0).
    + destruct (String.eqb_spec k' k0) as [->|Hne'].
      * destruct (String.eqb_spec k0 k) as [Heq|_]; [now subst | reflexivity].
      * exact IH.
Qed.

Lemma pset_keys_fresh (d : pdict) (k : string) (v : pvalue) :
  ~ In k (map fst d) -> pset d k v = d ++ [(k, v)].
Proof.
  induction d as [|[k0 v0] rest IH]; simpl; intros Hk.
  - reflexivity.
  - destruct (String.eqb_spec k k0) as [->|Hne].
    + exfalso. apply Hk. now left.
    + rewrite IH; [reflexivity | tauto].
Qed.

Lemma pset_keys_old (d : pdict) (k : string) (v : pvalue) :
  In k (map fst d) -> map fst (pset d k v) = map fst d.
Proof.
  induction d as [|[k0 v0] rest IH]; simpl; intros Hk.
  - contradiction.
  - destruct (String.eqb_spec k k0) as [->|Hne]; simpl.
    + reflexivity.
    + rewrite IH; [reflexivity | ]. destruct Hk as [Heq|Hin]; [now subst | exact Hin].
Qed.

Lemma pset_nodup (d : pdict) (k : string) (v : pvalue) :
  NoDup (map fst d) -> NoDup (map fst (pset d k v)).
Proof.
  intros Hd.
  destruct (in_dec string_dec k (map fst d)) as [Hin|Hout].
  - now rewrite pset_keys_old.
  - rewrite pset_keys_fresh by exact Hout.
    rewrite map_app. simpl.
    apply NoDup_app; [exact Hd | constructor; [intros [] | constructor] | ].
    intros x Hx [<-|[]]. now apply Hout.
Qed.

Lemma pupdate_nodup (other d : pdict) :
  NoDup (map fst d) -> NoDup (map fst (pupdate d other)).
Proof.
  unfold pupdate. revert d.
  induction other as [|[k v] rest IH]; simpl; intros d Hd.
  - exact Hd.
  - apply IH. now apply pset_nodup.
Qed.

Lemma pget_pupdate_absent (other d : pdict) (k : string) :
  pget other k = None -> pget (pupdate d other) k = pget d k.
Proof.
  unfold pupdate. revert d.
  induction other as [|[k0 v0] rest IH]; simpl; intros d Hk.
  - reflexivity.
  - destruct (String.eqb_spec k k0) as [->|Hne]; [discriminate|].
    rewrite IH by exact Hk. rewrite pget_pset.
    destruct (String.eqb_spec k k0); [contradiction | reflexivity].
Qed.

Lemma pget_pupdate_present (other d : pdict) (k : string) (v : pvalue) :
  NoDup (map fst other) -> pget other k = Some v ->
  pget (pupdate d other) k = Some v.
Proof.
  unfold pupdate. revert d.
  induction other as [|[k0 v0] rest IH]; simpl; intros d Hnd Hk.
  - discriminate.
  - inversion Hnd as [|? ? Hout Hrest]; subst.
    destruct (String.eqb_spec k k0) as [->|Hne].
    + injection Hk as ->.
      fold (pupdate (pset d k0 v) rest).
      rewrite pget_pupdate_absent by now apply pget_in_keys.
      rewrite pget_pset. now rewrite String.eqb_refl.
    + now apply IH.
Qed.

(** Setting, in place, the value of the key of an item of the dictionary. *)
Lemma pset_middle (pre post : pdict) (k : string) (v w : pvalue) :
  ~ In k (map fst pre) ->
  pset (pre ++ (k, v) :: post) k w = pre ++ (k, w) :: post.
Proof.
  induction pre as [|[k0 v0] rest IH]; simpl; intros Hk.
  - now rewrite String.eqb_refl.
  - destruct (String.eqb_spec k k0) as [->|Hne].
    + exfalso. apply Hk. now left.
    + rewrite IH; [reflexivity | tauto].
Qed.

Lemma bool2str_item_middle (pre post : pdict) (kv : string * pvalue) :
  ~ In (fst kv) (map fst pre) ->
  bool2str_item (pre ++ kv :: post) kv = pre ++ yes_no_item kv :: post.
Proof.
  destruct kv as [k v]. unfold bool2str_item, yes_no_item. simpl. intros Hk.
  destruct v as [|[|]| | |]; try reflexivity; now apply pset_middle.
Qed.

Lemma bool2str_fold (items pre : pdict) :
  NoDup (map fst (pre ++ items)) ->
  fold_left bool2str_item items (pre ++ items) = pre ++ map yes_no_item items.
Proof.
  revert pre. induction items as [|kv rest IH]; simpl; intros pre Hnd.
  - reflexivity.
  - rewrite bool2str_item_middle.
    + replace (pre ++ yes_no_item kv :: rest)
        with ((pre ++ [yes_no_item kv]) ++ rest) by now rewrite <- app_assoc.
      rewrite IH; [now rewrite <- app_assoc | ].
      rewrite <- app_assoc. simpl.
      rewrite map_app in *. simpl in *. exact Hnd.
    + rewrite map_app in Hnd. simpl in Hnd.
      apply NoDup_remove_2 in Hnd. intros Hin. apply Hnd.
      apply in_or_app. now left.
Qed.

Lemma bool2str_map (props : pdict) :
  NoDup (map fst props) -> __bool2str props = map yes_no_item props.
Proof.
  intros Hnd. exact (bool2str_fold props [] Hnd).
Qed.

Lemma pget_map_yes_no (d : pdict) (k : string) :
  pget (map yes_no_item d) k = option_map yes_no (pget d k).
Proof.
  induction d as [|[k0 v0] rest IH]; simpl.
  - reflexivity.
  - destruct (String.eqb k k0); [reflexivity | exact IH].
Qed.

Lemma yes_no_not_bool (v : pvalue) : is_bool (yes_no v) = false.
Proof. now destruct v as [|[|]| | |]. Qed.

Lemma yes_no_keeps (v : pvalue) : is_bool v = false -> yes_no v = v.
Proof. now destruct v as [|[|]| | |]. Qed.

(** ** Counters and names *)


Lemma lookup_store_count (l : list (string * nat)) (k : string) (n : nat) :
  lookup_count (store_count l k n) k = Some n.
Proof.
  induction l as [|[k0 n0] rest IH]; simpl.
  - now rewrite String.eqb_refl.
  - destruct (String.eqb_spec k k0) as [->|Hne]; simpl.
    + now rewrite String.eqb_refl.
    + destruct (String.eqb_spec k k0); [contradiction | exact IH].
Qed.

Lemma counts_of_set (st : counters) (c : cls) (n : nat) :
  counts_of (set_counts st c n) c = Some n.
Proof.
  destruct c as [|name]; simpl; [reflexivity|].
  now rewrite lookup_store_count.
Qed.

Lemma counts_of_new (st : counters) (c : cls) :
  counts_of (__new__ st c) c = Some (next_count st c).
Proof.
  unfold __new__, next_count.
  destruct (counts_of st c); apply counts_of_set.
Qed.

(** The name [__init__] reads: the given one, after [__bool2str]. *)
Lemma name_read (d : pdict) :
  NoDup (map fst d) ->
  pget (__bool2str d) "name" = option_map yes_no (pget d "name").
Proof.
  intros Hkeys. rewrite (bool2str_map d Hkeys). apply pget_map_yes_no.
Qed.

Lemma named_get (props features : pdict) (name : pvalue) (k : string) :
  pget features k = None ->
  pget (pupdate (pset props "name" name) features) k
  = if String.eqb k "name" then Some name else pget props k.
Proof.
  intros Hf. rewrite pget_pupdate_absent by exact Hf. apply pget_pset.
Qed.

Lemma default_keys (file_ : pvalue) : NoDup (map fst (default_properties file_)).
Proof.
  simpl. repeat constructor; simpl; intuition discriminate.
Qed.

(** ** [__bool2str] *)

(** X26.  In a dictionary (no key twice) [__bool2str] keeps every key at
    its place, puts 'yes' for [True] and 'no' for [False], and leaves every
    other value as it is: afterwards no value is a [bool]. *)
Theorem bool2str_converts_every_bool (props : pdict)
    (Hkeys : NoDup (map fst props)) :
  map fst (__bool2str props) = map fst props /\
  (forall k, pget (__bool2str props) k = option_map yes_no (pget props k)) /\
  (forall k v, pget (__bool2str props) k = Some v -> is_bool v = false) /\
  (forall k v, pget props k = Some v -> is_bool v = false ->
               pget (__bool2str props) k = Some v).
Proof.
  rewrite (bool2str_map props Hkeys).
  split; [|split; [|split]].
  - rewrite map_map. reflexivity.
  - intros k. apply pget_map_yes_no.
  - intros k v. rewrite pget_map_yes_no.
    destruct (pget props k) as [u|]; simpl; [|discriminate].
    intros [= <-]. apply yes_no_not_bool.
  - intros k v Hv Hb. rewrite pget_map_yes_no, Hv. simpl.
    now rewrite yes_no_keeps.
Qed.

(** ** [Coverage.__init__] *)


(** X28.  Without a name (none given, or [None]), and with no feature that
    sets one, the construction returns and the coverage is called after
    its class and the count of that class, which [__new__] has just
    raised: one more than the count the class had or inherited, or 1. *)
Theorem default_name_carries_the_class_count (st : counters) (c : cls)
    (features d : pdict)
    (Hkeys : NoDup (map fst d))
    (Hname : pget d "name" = None \/ pget d "name" = Some PNone)
    (Hfeat : pget features "name" = None) :
  exists props,
    construct st c features d = (__new__ st c, Built props)
    /\ counts_of (__new__ st c) c = Some (next_count st c)
    /\ pget props "name"
       = Some (PStr (class_name c ++ "."
                     ++ str_of_int (Z.of_nat (next_count st c))))%string.
Proof.
  unfold construct, __init__. rewrite (name_read d Hkeys), counts_of_new.
  destruct Hname as [-> | ->]; simpl; eexists; (split; [reflexivity|]);
    (split; [reflexivity|]); rewrite named_get by exact Hfeat; reflexivity.
Qed.

(** ** [HiCPeaks.__init__] *)

Section Init.

Variable opener : pvalue -> outcome string.
Variable change_chrom_names : string -> string.

Lemma init_properties (st st' : counters) (features kwargs : pdict)
    (file_ : pvalue) (props : pdict) (tree : dict) :
  HiCPeaks_init opener change_chrom_names st features file_ kwargs
  = (st', Built (props, tree)) ->
  exists name,
    props = pupdate (pset (__bool2str (pupdate (default_properties file_) kwargs))
                          "name" name) features.
Proof.
  unfold HiCPeaks_init, construct, __init__.
  set (D := pupdate (default_properties file_) kwargs).
  destruct (pget (__bool2str D) "name") as [[| |s| |]|]; try discriminate.
  all: match goal with
       | |- context [open_file opener ?p] =>
           destruct (content <- open_file opener p ;;
                     __process_loop_file change_chrom_names content);
           try discriminate
       end.
  all: intros [= _ <- _]; eexists; reflexivity.
Qed.

(** X29.  The keyword [fill] of the constructor is what [plot] reads back:
    the coverage is filled exactly when [fill=True] or [fill='yes'] was
    given, and it is not when the keyword is left out. *)
Theorem fill_keyword_round_trip (st st' : counters) (features kwargs : pdict)
    (file_ : pvalue) (props : pdict) (tree : dict)
    (Hkw : NoDup (map fst kwargs))
    (Hfeat : pget features "fill" = None)
    (Hbuilt : HiCPeaks_init opener change_chrom_names st features file_ kwargs
              = (st', Built (props, tree))) :
  fill_flag props = fill_keyword kwargs.
Proof.
  destruct (init_properties _ _ _ _ _ _ _ Hbuilt) as [name ->].
  unfold fill_flag, fill_keyword.
  rewrite named_get by exact Hfeat. simpl.
  rewrite bool2str_map by apply pupdate_nodup, default_keys.
  rewrite pget_map_yes_no.
  destruct (pget kwargs "fill") as [v|] eqn:Hv.
  - rewrite (pget_pupdate_present kwargs _ _ v Hkw Hv).
    now destruct v as [|[|]| | |].
  - rewrite pget_pupdate_absent by exact Hv. reflexivity.
Qed.

End Init.

(** ** Instances *)

Lemma bool2str_converts_every_bool_witness :
  NoDup (map fst (default_properties (PStr "loops.txt")))
  /\ (map fst (__bool2str (default_properties (PStr "loops.txt")))
      = map fst (default_properties (PStr "loops.txt"))
      /\ (forall k, pget (__bool2str (default_properties (PStr "loops.txt"))) k
                    = option_map yes_no
                        (pget (default_properties (PStr "loops.txt")) k))
      /\ (forall k v,
            pget (__bool2str (default_properties (PStr "loops.txt"))) k = Some v ->
            is_bool v = false)
      /\ (forall k v,
            pget (default_properties (PStr "loops.txt")) k = Some v ->
            is_bool v = false ->
            pget (__bool2str (default_properties (PStr "loops.txt"))) k = Some v)).
Proof.
  split; [apply default_keys |].
  apply (bool2str_converts_every_bool (default_properties (PStr "loops.txt"))).
  apply default_keys.
Defined.


(** [Coverage({}).properties] is [{'name': 'Coverage.1'}] when it is the
    first coverage made. *)
Lemma default_name_carries_the_class_count_witness :
  NoDup (map fst (@nil (string * pvalue)))
  /\ (pget [] "name" = None \/ pget [] "name" = Some PNone)
  /\ exists props,
       construct no_counts CoverageClass [] [] = (__new__ no_counts CoverageClass, Built props)
       /\ counts_of (__new__ no_counts CoverageClass) CoverageClass = Some 1
       /\ pget props "name" = Some (PStr "Coverage.1").
Proof.
  split; [constructor |]. split; [now left |].
  exact (default_name_carries_the_class_count no_counts CoverageClass [] []
           (NoDup_nil _) (or_introl eq_refl) eq_refl).
Defined.

Lemma fill_keyword_round_trip_witness :
  NoDup (map fst [("fill", PBool true)])
  /\ pget [] "fill" = None
  /\ HiCPeaks_init one_loop_opener (fun c => c) no_counts []
       (PStr "loops.txt") [("fill", PBool true)]
     = (__new__ no_counts (Subclass "HiCPeaks"),
        Built (filled_properties, one_loop_index))
  /\ fill_flag filled_properties = fill_keyword [("fill", PBool true)].
Proof.
  assert (Hkw : NoDup (map fst [("fill", PBool true)])).
  { repeat constructor. intros []. }
  assert (Hbuilt : HiCPeaks_init one_loop_opener (fun c => c) no_counts []
                     (PStr "loops.txt") [("fill", PBool true)]
                   = (__new__ no_counts (Subclass "HiCPeaks"),
                      Built (filled_properties, one_loop_index))).
  { reflexivity. }
  split; [exact Hkw |]. split; [reflexivity |]. split; [exact Hbuilt |].
  exact (fill_keyword_round_trip one_loop_opener (fun c => c) no_counts
           (__new__ no_counts (Subclass "HiCPeaks")) [] [("fill", PBool true)]
           (PStr "loops.txt") filled_properties one_loop_index
           Hkw eq_refl Hbuilt).
Defined.

End CoverageLaws.

(* ================================================================== *)
(** * Properties of [parse_samtools_cov] *)
(* ================================================================== *)

Module SamtoolsLaws.


Import Py Np HiCPeaks SamtoolsCoverage FetchHiCProperties.
Local Open Scope string_scope.
Local Open Scope list_scope.

(** ** The slice [lines[1:-1]] *)

Lemma inner_lines {A : Type} (lines : list A) :
  list_slice (Slice (Some 1%Z) (Some (-1)%Z)) lines = removelast (tl lines).
Proof.
  unfold list_slice, slice_len, slice_lo, slice_hi, clip_bound. cbn [start stop].
  destruct lines as [|x rest]; [reflexivity|].
  cbn [List.length tl].
  replace (Z.to_nat (Z.min 1 (Z.of_nat (S (List.length rest))))) with 1%nat by lia.
  replace (1 <? 0)%Z with false by reflexivity.
  replace (-1 <? 0)%Z with true by reflexivity.
  replace (Z.to_nat (Z.max 0 (-1 + Z.of_nat (S (List.length rest)))) - 1)%nat
    with (pred (List.length rest)) by lia.
  cbn [skipn]. symmetry. apply removelast_firstn_len.
Qed.

(** ** The dictionary [covs] holds the keys 0, 1, 2, ... in this order *)

Lemma keyed_cons (a : nat) (v : R) (vs : list R) :
  keyed a (v :: vs) = (a, v) :: keyed (S a) vs.
Proof. reflexivity. Qed.

Lemma covs_get_keyed (vs : list R) (a k : nat) :
  covs_get (keyed a vs) (a + k) = nth_error vs k.
Proof.
  revert a k. induction vs as [|v rest IH]; intros a k.
  - now destruct k.
  - rewrite keyed_cons. cbn [covs_get].
    destruct k as [|k].
    + now rewrite Nat.add_0_r, Nat.eqb_refl.
    + replace (a + S k =? a)%nat with false by (symmetry; apply Nat.eqb_neq; lia).
      replace (a + S k)%nat with (S a + k)%nat by lia. apply IH.
Qed.

Lemma covs_get_below (vs : list R) (a i : nat) :
  (i < a)%nat -> covs_get (keyed a vs) i = None.
Proof.
  revert a. induction vs as [|v rest IH]; intros a Hi; [reflexivity|].
  rewrite keyed_cons. cbn [covs_get].
  replace (i =? a)%nat with false by (symmetry; apply Nat.eqb_neq; lia).
  apply IH. lia.
Qed.

Lemma covs_set_append (vs : list R) (a : nat) (v : R) :
  covs_set (keyed a vs) (a + List.length vs) v = keyed a (vs ++ [v]).
Proof.
  revert a. induction vs as [|w rest IH]; intros a.
  - cbn. now rewrite Nat.add_0_r.
  - cbn [List.length app]. rewrite !keyed_cons. cbn [covs_set].
    replace (a + S (List.length rest) =? a)%nat with false
      by (symmetry; apply Nat.eqb_neq; lia).
    replace (a + S (List.length rest))%nat with (S a + List.length rest)%nat by lia.
    now rewrite IH.
Qed.

Lemma covs_set_middle (pre post : list R) (a : nat) (w v : R) :
  covs_set (keyed a (pre ++ w :: post)) (a + List.length pre) v
  = keyed a (pre ++ v :: post).
Proof.
  revert a. induction pre as [|u rest IH]; intros a.
  - cbn [app List.length]. rewrite !keyed_cons. cbn [covs_set].
    now rewrite Nat.add_0_r, Nat.eqb_refl.
  - cbn [List.length app]. rewrite !keyed_cons. cbn [covs_set].
    replace (a + S (List.length rest) =? a)%nat with false
      by (symmetry; apply Nat.eqb_neq; lia).
    replace (a + S (List.length rest))%nat with (S a + List.length rest)%nat by lia.
    now rewrite IH.
Qed.

(** ** One character of a line *)

Lemma is_zero_0 : is_zero 0 = true.
Proof. now apply is_zero_true. Qed.

Lemma mark_column_keyed (percent : R) (c : N) (pre vs : list R) :
  mark_column percent (keyed 0 (pre ++ vs)) (List.length pre, c)
  = Ok (keyed 0 (pre ++ mark1 percent c (hd 0%R vs) :: tl vs)).
Proof.
  unfold mark_column, covs_setdefault, covs_item, mark1.
  pose proof (covs_get_keyed (pre ++ vs) 0 (List.length pre)) as Hget.
  cbn [Nat.add] in Hget. rewrite Hget.
  destruct vs as [|v rest].
  - rewrite app_nil_r.
    replace (nth_error pre (List.length pre)) with (@None R)
      by (symmetry; apply nth_error_None; lia).
    pose proof (covs_set_append pre 0 0%R) as Happ. cbn [Nat.add] in Happ.
    rewrite Happ. cbn [hd tl].
    destruct (negb (N.eqb c SPACE)); cbn [andb]; [|reflexivity].
    pose proof (covs_get_keyed (pre ++ [0%R]) 0 (List.length pre)) as Hget0.
    cbn [Nat.add] in Hget0. rewrite Hget0.
    rewrite nth_error_app2, Nat.sub_diag by lia. cbn [nth_error bind].
    rewrite is_zero_0.
    pose proof (covs_set_middle pre [] 0 0%R percent) as Hmid.
    cbn [Nat.add] in Hmid. now rewrite Hmid.
  - rewrite nth_error_app2, Nat.sub_diag by lia. cbn [nth_error hd tl].
    destruct (negb (N.eqb c SPACE)); cbn [andb]; [|reflexivity].
    rewrite Hget, nth_error_app2, Nat.sub_diag by lia. cbn [nth_error bind].
    destruct (is_zero v); [|reflexivity].
    pose proof (covs_set_middle pre rest 0 v percent) as Hmid.
    cbn [Nat.add] in Hmid. now rewrite Hmid.
Qed.

(** ** One line *)

Lemma mark_columns_keyed (percent : R) (mid : text) (pre vs : list R) :
  for_each (enumerate_from (List.length pre) mid) (mark_column percent)
           (keyed 0 (pre ++ vs))
  = Ok (keyed 0 (pre ++ mark_zip percent mid vs)).
Proof.
  revert pre vs. induction mid as [|c rest IH]; intros pre vs.
  - reflexivity.
  - cbn [enumerate_from for_each mark_zip].
    rewrite mark_column_keyed. cbn [bind].
    replace (pre ++ mark1 percent c (hd 0%R vs) :: tl vs)
      with ((pre ++ [mark1 percent c (hd 0%R vs)]) ++ tl vs)
      by now rewrite <- app_assoc.
    replace (S (List.length pre))
      with (List.length (pre ++ [mark1 percent c (hd 0%R vs)]))
      by (rewrite length_app; cbn; lia).
    rewrite IH. now rewrite <- app_assoc.
Qed.

Lemma mark_zip_length (percent : R) (mid : text) (vs : list R) :
  List.length (mark_zip percent mid vs)
  = Nat.max (List.length mid) (List.length vs).
Proof.
  revert vs. induction mid as [|c rest IH]; intros vs; [reflexivity|].
  cbn [mark_zip List.length]. rewrite IH. destruct vs; cbn; lia.
Qed.

Lemma nth_tl (vs : list R) (i : nat) : nth i (tl vs) 0%R = nth (S i) vs 0%R.
Proof. destruct vs; [now destruct i | reflexivity]. Qed.

Lemma mark_zip_nth (percent : R) (mid : text) (vs : list R) (i : nat) :
  nth i (mark_zip percent mid vs) 0%R
  = if marked mid i && is_zero (nth i vs 0%R) then percent else nth i vs 0%R.
Proof.
  revert vs i. induction mid as [|c rest IH]; intros vs i.
  - unfold marked. now destruct i.
  - cbn [mark_zip]. destruct i as [|i].
    + cbn [nth]. unfold marked, mark1. cbn [nth_error].
      now destruct vs.
    + cbn [nth]. rewrite IH, nth_tl. reflexivity.
Qed.

Section Parse.

Variable float : text -> outcome R.

Lemma parse_line_keyed (line : text) (percent : R) (mid : text) (vs : list R) :
  read_line float line = Ok (percent, mid) ->
  parse_line float (keyed 0 vs) line = Ok (keyed 0 (mark_zip percent mid vs)).
Proof.
  unfold read_line, parse_line.
  destruct (unpack3 (text_split BAR line)) as [[[l m] r]|e]; cbn [bind];
    [|discriminate].
  destruct (float (text_strip [GREATER; SPACE; PERCENT] l)) as [p|e];
    cbn [bind]; [|discriminate].
  intros [= -> ->].
  exact (mark_columns_keyed percent mid [] vs).
Qed.

Lemma parse_lines_keyed (lines : list text) (rows : list (R * text))
    (vs : list R) :
  map_outcome (read_line float) lines = Ok rows ->
  for_each lines (parse_line float) (keyed 0 vs) = Ok (keyed 0 (mark_rows rows vs)).
Proof.
  revert rows vs. induction lines as [|line rest IH]; intros rows vs.
  - intros [= <-]. reflexivity.
  - cbn [map_outcome for_each].
    destruct (read_line float line) as [[percent mid]|e] eqn:Hline;
      cbn [bind]; [|discriminate].
    destruct (map_outcome (read_line float) rest) as [rows'|e] eqn:Hrest;
      cbn [bind]; [|discriminate].
    intros [= <-].
    rewrite (parse_line_keyed line percent mid vs Hline). cbn [bind].
    now rewrite (IH rows' _ eq_refl).
Qed.

End Parse.

(** ** All the lines *)

Lemma mark_rows_length (rows : list (R * text)) (vs : list R) :
  List.length (mark_rows rows vs) = Nat.max (width rows) (List.length vs).
Proof.
  revert vs. induction rows as [|[percent mid] rest IH]; intros vs.
  - reflexivity.
  - unfold mark_rows in *. cbn [fold_left fst snd width fold_right].
    rewrite IH, mark_zip_length. fold (width rest). lia.
Qed.

Lemma mark_rows_nth (rows : list (R * text)) (vs : list R) (i : nat) :
  nth i (mark_rows rows vs) 0%R
  = if is_zero (nth i vs 0%R) then column_value rows i else nth i vs 0%R.
Proof.
  revert vs. induction rows as [|[percent mid] rest IH]; intros vs.
  - cbn. destruct (is_zero (nth i vs 0%R)) eqn:Hz; [|reflexivity].
    now apply is_zero_true in Hz.
  - unfold mark_rows in *. cbn [fold_left fst snd column_value].
    rewrite IH, mark_zip_nth.
    destruct (is_zero (nth i vs 0%R)) eqn:Hv.
    + destruct (marked mid i); cbn [andb]; [|now rewrite Hv].
      destruct (is_zero percent) eqn:Hp; cbn [negb]; reflexivity.
    + rewrite andb_false_r. now rewrite Hv.
Qed.

(** ** Reading the dictionary back *)

Lemma keyed_keys (vs : list R) (a : nat) :
  map fst (keyed a vs) = seq a (List.length vs).
Proof.
  revert a. induction vs as [|v rest IH]; intros a; [reflexivity|].
  rewrite keyed_cons. cbn. now rewrite IH.
Qed.

Lemma sorted_keys_seq (n a : nat) : sorted_keys (seq a n) = seq a n.
Proof.
  revert a. induction n as [|n IH]; intros a; [reflexivity|].
  cbn [seq sorted_keys fold_right]. fold (sorted_keys (seq (S a) n)).
  rewrite IH. destruct n as [|n]; [reflexivity|].
  cbn [seq insert_key].
  now replace (a <=? S a)%nat with true by (symmetry; apply Nat.leb_le; lia).
Qed.

Lemma map_outcome_ext {A B : Type} (f g : A -> outcome B) (xs : list A) :
  (forall x, In x xs -> f x = g x) -> map_outcome f xs = map_outcome g xs.
Proof.
  induction xs as [|x rest IH]; intros Hfg; [reflexivity|].
  cbn [map_outcome]. rewrite (Hfg x) by now left.
  rewrite IH; [reflexivity|]. intros y Hy. apply Hfg. now right.
Qed.

Lemma covs_items_keyed (vs : list R) (a : nat) :
  map_outcome (covs_item (keyed a vs)) (seq a (List.length vs)) = Ok vs.
Proof.
  revert a. induction vs as [|v rest IH]; intros a; [reflexivity|].
  cbn [List.length seq map_outcome].
  unfold covs_item at 1. rewrite keyed_cons. cbn [covs_get].
  rewrite Nat.eqb_refl. cbn [bind].
  rewrite (map_outcome_ext _ (covs_item (keyed (S a) rest))).
  - now rewrite IH.
  - intros j Hj. apply in_seq in Hj. unfold covs_item. cbn [covs_get].
    now replace (j =? a)%nat with false by (symmetry; apply Nat.eqb_neq; lia).
Qed.

Lemma columns_parsed (float : text -> outcome R) (lines : list text)
    (rows : list (R * text)) :
  map_outcome (read_line float) (removelast (tl lines)) = Ok rows ->
  parse_samtools_cov float lines
  = Ok (map (column_value rows) (seq 0 (width rows))).
Proof.
  intros Hrows. unfold parse_samtools_cov. rewrite inner_lines.
  change (@nil (nat * R)) with (keyed 0 []).
  rewrite (parse_lines_keyed float _ rows [] Hrows). cbn [bind].
  rewrite keyed_keys, sorted_keys_seq, covs_items_keyed.
  f_equal. apply (nth_ext _ _ 0%R 0%R).
  - rewrite mark_rows_length, length_map, length_seq. cbn. lia.
  - intros i Hi. rewrite mark_rows_length in Hi. cbn [List.length] in Hi.
    rewrite Nat.max_0_r in Hi.
    rewrite mark_rows_nth, nth_map_seq by exact Hi.
    destruct i; cbn [nth]; now rewrite is_zero_0.
Qed.

(** X30.  When every line but the first and the last has its three fields
    and a percentage [float] can read, [parse_samtools_cov] returns one
    number for each column of the widest of these lines: the percentage of
    the first line that draws the column (a character other than a blank)
    with a percentage that is not zero, and zero when there is no such
    line.  The first and the last line are never read. *)
Theorem coverage_is_read_column_by_column (float : text -> outcome R)
    (lines : list text) (rows : list (R * text)) :
  map_outcome (read_line float) (removelast (tl lines)) = Ok rows ->
  parse_samtools_cov float lines
  = Ok (map (column_value rows) (seq 0 (width rows))).
Proof.
  exact (columns_parsed float lines rows).
Qed.

(** ** Instances *)

Lemma coverage_is_read_column_by_column_witness :
  map_outcome (read_line fifty) (removelast (tl histogram)) = Ok histogram_rows
  /\ parse_samtools_cov fifty histogram
     = Ok (map (column_value histogram_rows) (seq 0 (width histogram_rows))).
Proof.
  split; [reflexivity |].
  apply (coverage_is_read_column_by_column fifty histogram histogram_rows).
  reflexivity.
Defined.

End SamtoolsLaws.
